(** * Gas.zip deposit calldata decoder: model and properties

    Shallow embedding of [src/gaszip-decode.ts].  JavaScript strings are
    sequences of UTF-16 code units, [Uint8Array]s are lists of integers,
    thrown [Error]s become the [Throw] case of a result type, and the three
    address encoders of the npm packages [bs58], [base-x] and [bech32] are
    parameters of the decoder.  The lines written to stderr when
    [DEBUG_DECODER] is set and the command-line wrapper are left out: they
    do not change what [decodeGasZipCalldata] returns. *)

From Stdlib Require Import String Ascii ZArith NArith Arith Bool Lia List.
From Stdlib Require Import FunInd Recdef.
Import ListNotations.

Set Implicit Arguments.

(** ** JavaScript strings *)

Module JS.

(** A string is its sequence of UTF-16 code units; [length], [startsWith]
    and [slice] all count code units. *)
Definition jsstring := list N.

(** Literals: every character of an ASCII literal is one code unit. *)
Definition str (s : string) : jsstring :=
  map N_of_ascii (list_ascii_of_string s).

Definition startsWith (s pre : jsstring) : bool :=
  if list_eq_dec N.eq_dec (firstn (length pre) s) pre then true else false.

(** [s.slice(a)] and [s.slice(a, b)] for [0 <= a <= b]. *)
Definition sliceFrom {A} (s : list A) (a : nat) : list A := skipn a s.
Definition slice {A} (s : list A) (a b : nat) : list A := firstn (b - a) (skipn a s).

(** [s.padStart(n, '0')]. *)
Definition padStart0 (s : jsstring) (n : nat) : jsstring :=
  repeat 48%N (n - length s) ++ s.

(** WhiteSpace and LineTerminator code points, the ones [parseInt] skips. *)
Definition isWhiteSpace (c : N) : bool :=
  existsb (N.eqb c)
    [0x09; 0x0A; 0x0B; 0x0C; 0x0D; 0x20; 0xA0; 0x1680; 0x2028; 0x2029;
     0x202F; 0x205F; 0x3000; 0xFEFF]%N
  || ((0x2000 <=? c) && (c <=? 0x200A))%N.

(** Value of a radix-16 digit. *)
Definition hexDigitValue (c : N) : option Z :=
  if ((48 <=? c) && (c <=? 57))%N then Some (Z.of_N (c - 48))
  else if ((97 <=? c) && (c <=? 102))%N then Some (Z.of_N (c - 87))
  else if ((65 <=? c) && (c <=? 70))%N then Some (Z.of_N (c - 55))
  else None.

Fixpoint trimStart (s : jsstring) : jsstring :=
  match s with
  | c :: s' => if isWhiteSpace c then trimStart s' else s
  | [] => []
  end.

(** Longest prefix of radix-16 digits, folded into its value; [None] when
    the prefix is empty. *)
Fixpoint hexPrefix (s : jsstring) (acc : option Z) : option Z :=
  match s with
  | c :: s' =>
      match hexDigitValue c with
      | Some d => hexPrefix s' (Some (match acc with Some a => a * 16 + d | None => d end)%Z)
      | None => acc
      end
  | [] => acc
  end.

(** [parseInt(s, 16)]; [None] is NaN.  Exact as long as the value is below
    2^53, which holds for the two-character slices of [hexToBytes]. *)
Definition parseInt16 (s : jsstring) : option Z :=
  let S0 := trimStart s in
  let sign := match S0 with 45%N :: _ => (-1)%Z | _ => 1%Z end in
  let S1 := match S0 with
            | 43%N :: r => r
            | 45%N :: r => r
            | _ => S0
            end in
  let S2 := match S1 with
            | 48%N :: 120%N :: r => r
            | 48%N :: 88%N :: r => r
            | _ => S1
            end in
  option_map (Z.mul sign) (hexPrefix S2 None).

(** Storing a number into a [Uint8Array] element: NaN becomes 0, integers
    wrap modulo 256. *)
Definition ToUint8 (v : option Z) : Z :=
  match v with
  | Some n => (n mod 256)%Z
  | None => 0%Z
  end.

Definition hexDigit (d : Z) : N :=
  if (d <? 10)%Z then Z.to_N (48 + d) else Z.to_N (87 + d).

Fixpoint hexDigits (fuel : nat) (n : Z) (acc : jsstring) : jsstring :=
  match fuel with
  | O => acc
  | S fuel' =>
      let acc' := hexDigit (n mod 16) :: acc in
      if (n <? 16)%Z then acc' else hexDigits fuel' (n / 16) acc'
  end.

(** [n.toString(16)] for an integer [n]. *)
Definition toString16 (n : Z) : jsstring :=
  if (n <? 0)%Z then 45%N :: hexDigits (S (Z.to_nat (Z.log2 (- n)))) (- n) []
  else hexDigits (S (Z.to_nat (Z.log2 n))) n [].

End JS.
Import JS.

(** ** Errors *)

(** One constructor for each [throw] of the decoder. *)
Inductive DecodeError : Type :=
| ExpectedHexString      (* assertHex *)
| InvalidHexLength       (* hexToBytes *)
| EmptyCalldataError     (* decodeGasZipCalldata, data.length < 1 *)
| CalldataTooShort       (* splitAddressAndChains, body shorter than fixedLen *)
| ChainTailNotEven       (* splitAddressAndChains, odd tail *)
| EvmAddressLength       (* decodeGasZipCalldata, prefix 0x02 *)
| MoveAddressLength      (* decodeGasZipCalldata, prefix 0x04 *)
| InitiaAddressLength.   (* decodeGasZipCalldata, prefix 0x06 *)

Definition errorMessage (e : DecodeError) : jsstring :=
  match e with
  | ExpectedHexString => str "Expected 0x-prefixed even-length hex string"
  | InvalidHexLength => str "Invalid hex length"
  | EmptyCalldataError => str "Empty calldata"
  | CalldataTooShort => str "Calldata too short for expected address length"
  | ChainTailNotEven => str "Chain IDs tail must be a multiple of 2 bytes"
  | EvmAddressLength => str "EVM address must be 20 bytes"
  | MoveAddressLength => str "MOVE/FUEL address must be 32 bytes"
  | InitiaAddressLength => str "Initia address expected 20 bytes"
  end.

(** The error taxonomy of the specification. *)
Inductive ErrorKind : Type :=
| InvalidHexEncoding
| EmptyCalldata
| AddressLengthMismatch
| MalformedChainTail.

Definition errorKind (e : DecodeError) : ErrorKind :=
  match e with
  | ExpectedHexString | InvalidHexLength => InvalidHexEncoding
  | EmptyCalldataError => EmptyCalldata
  | CalldataTooShort | EvmAddressLength | MoveAddressLength
  | InitiaAddressLength => AddressLengthMismatch
  | ChainTailNotEven => MalformedChainTail
  end.

Inductive result (A : Type) : Type :=
| Ok (a : A)
| Throw (e : DecodeError).
Arguments Ok {A} a.
Arguments Throw {A} e.

Definition bind {A B} (r : result A) (k : A -> result B) : result B :=
  match r with
  | Ok a => k a
  | Throw e => Throw e
  end.

Notation "x <- r ;; k" := (bind r (fun x => k))
  (at level 61, r at next level, right associativity).
Notation "r ;;; k" := (bind r (fun _ => k))
  (at level 61, right associativity).

(** [r] failed with an error of kind [k]. *)
Definition failsWith {A} (r : result A) (k : ErrorKind) : Prop :=
  exists e, r = Throw e /\ errorKind e = k.

(** ** Chain registry *)

Module Registry.

Record ChainInfo : Type := mkChain { name : jsstring; nativeId : Z }.

Definition chain (id : Z) (nm : jsstring) (native : Z) : Z * ChainInfo :=
  (id, mkChain nm native).

Definition GASZIP_CHAINS : list (Z * ChainInfo) := [
    chain 110 (str "Abstract") 2741;
    chain 493 (str "Adventure Layer") 9988;
    chain 261 (str "AILayer") 2649;
    chain 297 (str "Aleph Zero EVM") 41455;
    chain 233 (str "AlienX") 10241024;
    chain 128 (str "Ancient8") 888888888;
    chain 445 (str "Animechain") 69000;
    chain 296 (str "ApeChain") 33139;
    chain 401 (str "AppChain") 466;
    chain 348 (str "Aptos") 1000011;
    chain 53 (str "Arbitrum Nova") 42170;
    chain 57 (str "Arbitrum One") 42161;
    chain 40 (str "Astar") 592;
    chain 62 (str "Aurora") 1313161554;
    chain 15 (str "Avalanche") 43114;
    chain 278 (str "B3") 8333;
    chain 292 (str "Bahamut") 5165;
    chain 54 (str "Base Mainnet") 8453;
    chain 479 (str "Battle for Blockchain") 3920262608331171;
    chain 24 (str "Beam") 4337;
    chain 143 (str "Berachain") 80094;
    chain 138 (str "BEVM") 11501;
    chain 85 (str "BiFrost") 3068;
    chain 147 (str "Bitlayer") 200901;
    chain 494 (str "Bittensor EVM") 964;
    chain 96 (str "Blast") 81457;
    chain 150 (str "BOB") 60808;
    chain 411 (str "Boba BNB") 56288;
    chain 140 (str "Boba ETH") 288;
    chain 496 (str "Botanix") 3637;
    chain 14 (str "BSC Mainnet") 56;
    chain 148 (str "B" ++ [178%N] ++ str " Network") 223;
    chain 126 (str "Callisto") 820;
    chain 502 (str "CAMP") 484;
    chain 21 (str "Celo") 42220;
    chain 333 (str "CheeseChain") 383353;
    chain 458 (str "Civitia") 1000024;
    chain 357 (str "Codex") 81224;
    chain 65 (str "ConFlux") 1030;
    chain 498 (str "Converge") 432;
    chain 416 (str "Conwai") 668668;
    chain 34 (str "CoreDAO") 1116;
    chain 391 (str "Corn") 21000000;
    chain 36 (str "Cronos") 25;
    chain 276 (str "Cronos zkEVM") 388;
    chain 135 (str "Cyber") 7560;
    chain 300 (str "DeBank") 20240603;
    chain 133 (str "Degen") 666666666;
    chain 365 (str "Derive") 957;
    chain 63 (str "Dexalot") 432204;
    chain 46 (str "Dogechain") 2000;
    chain 134 (str "Dymension") 1100;
    chain 459 (str "Echelon") 1000025;
    chain 328 (str "Eclipse") 1000002;
    chain 489 (str "EDU") 41923;
    chain 474 (str "Embr") 2598901095158506;
    chain 302 (str "Endurance") 648;
    chain 142 (str "EOS EVM") 17777;
    chain 255 (str "Ethereum") 1;
    chain 346 (str "Etherlink") 42793;
    chain 364 (str "Ethernity") 183;
    chain 71 (str "ETHW") 10001;
    chain 491 (str "Everclear") 25327;
    chain 39 (str "EVMOS") 9001;
    chain 403 (str "ExSat") 7200;
    chain 20 (str "Fantom") 250;
    chain 354 (str "Flame") 253368190;
    chain 38 (str "Flare") 14;
    chain 437 (str "Flow EVM") 747;
    chain 304 (str "Fluence") 9999999;
    chain 383 (str "Form") 478;
    chain 267 (str "Forma") 984122;
    chain 10 (str "Fraxtal") 252;
    chain 339 (str "Fuel") 1000006;
    chain 31 (str "Fuse") 122;
    chain 431 (str "G7") 2187;
    chain 16 (str "Gnosis") 100;
    chain 440 (str "GOAT") 2345;
    chain 240 (str "Gravity") 1625;
    chain 247 (str "Ham") 5112;
    chain 66 (str "Harmony") 1666600000;
    chain 408 (str "Hashkey") 177;
    chain 397 (str "Hemi") 43111;
    chain 495 (str "Humanity") 6985385;
    chain 501 (str "Humanode") 5234;
    chain 132 (str "Hychain") 2911;
    chain 291 (str "HyperCore") 88778877;
    chain 430 (str "HyperEVM") 999;
    chain 95 (str "Immutable zkEVM") 13371;
    chain 480 (str "ING") 2780922216980457;
    chain 456 (str "Initia") 1000023;
    chain 78 (str "Injective EVM") 2525;
    chain 392 (str "Ink") 57073;
    chain 460 (str "INRT") 1000026;
    chain 461 (str "Intergaze") 1000027;
    chain 67 (str "IoTeX") 4689;
    chain 33 (str "Kaia") 8217;
    chain 485 (str "Katana") 747474;
    chain 22 (str "Kava") 2222;
    chain 90 (str "KCC") 321;
    chain 478 (str "LayerEdge") 4207;
    chain 442 (str "Lens") 232;
    chain 79 (str "Lightlink") 1890;
    chain 59 (str "Linea") 59144;
    chain 238 (str "Lisk") 1135;
    chain 87 (str "Lukso") 42;
    chain 332 (str "Lumia Prism") 994873017;
    chain 100 (str "Lumio") 8866;
    chain 60 (str "Manta") 169;
    chain 13 (str "Mantle Mainnet") 5000;
    chain 294 (str "Matchain") 698;
    chain 9 (str "Merlin") 4200;
    chain 144 (str "Metal") 1750;
    chain 26 (str "Meter") 82;
    chain 30 (str "Metis") 1088;
    chain 499 (str "Mezo") 31612;
    chain 483 (str "MilkyWay") 1000033;
    chain 407 (str "Mind") 228;
    chain 253 (str "Mint") 185;
    chain 503 (str "Mitosis") 124816;
    chain 73 (str "Mode") 34443;
    chain 28 (str "Moonbeam") 1284;
    chain 29 (str "Moonriver") 1285;
    chain 340 (str "Morph") 2818;
    chain 97 (str "Muster Network") 4078;
    chain 92 (str "Neon EVM") 245022934;
    chain 477 (str "Nibiru") 6900;
    chain 259 (str "Numbers") 10507;
    chain 23 (str "Oasis Emerald") 42262;
    chain 69 (str "Oasys") 248;
    chain 490 (str "OEV API3") 4913;
    chain 35 (str "OKX") 66;
    chain 492 (str "Onyx") 80888;
    chain 55 (str "OP Mainnet") 10;
    chain 58 (str "opBNB") 204;
    chain 236 (str "Optopia") 62050;
    chain 74 (str "Orderly") 291;
    chain 423 (str "Peaq") 3338;
    chain 88 (str "PEGO") 20201022;
    chain 422 (str "Phala") 2035;
    chain 5 (str "PlatON") 210425;
    chain 450 (str "Plume") 98866;
    chain 17 (str "Polygon") 137;
    chain 52 (str "Polygon zkEVM") 1101;
    chain 367 (str "Polynomial") 8008;
    chain 448 (str "Powerloom V2") 7869;
    chain 378 (str "Prom") 227;
    chain 98 (str "Proof of Play Apex") 70700;
    chain 293 (str "Proof of Play Boss") 70701;
    chain 12 (str "Pulsechain") 369;
    chain 452 (str "R5 Testnet") 337;
    chain 298 (str "Race") 6805;
    chain 82 (str "Rari") 1380012617;
    chain 482 (str "Rave") 555110192329996;
    chain 149 (str "Redstone") 690;
    chain 466 (str "Rena Nuwa") 1000032;
    chain 234 (str "Reya") 1729;
    chain 396 (str "River") 550;
    chain 413 (str "Ronin") 2020;
    chain 254 (str "Rootstock") 30;
    chain 125 (str "RSS3") 12553;
    chain 295 (str "Saakuru") 7225878;
    chain 131 (str "Sanko") 1996;
    chain 6 (str "SatoshiVM") 3109;
    chain 246 (str "Sei") 1329;
    chain 443 (str "Settlus") 5371;
    chain 327 (str "Shape") 360;
    chain 455 (str "zkCandy") 320;
    chain 398 (str "Skate") 5050;
    chain 287 (str "Snaxchain") 2192;
    chain 245 (str "Solana") 501474;
    chain 504 (str "Somnia") 5031;
    chain 414 (str "Soneium") 1868;
    chain 389 (str "Sonic") 146;
    chain 410 (str "Soon Mainnet") 1000020;
    chain 484 (str "Sophon") 50104;
    chain 406 (str "Spotlight") 10058111;
    chain 64 (str "Step") 1234;
    chain 181 (str "Story") 1514;
    chain 347 (str "Sui") 1000010;
    chain 303 (str "Superposition") 55244;
    chain 366 (str "Superseed") 5330;
    chain 256 (str "Swan") 254;
    chain 385 (str "Swell") 1923;
    chain 19 (str "SX Network") 416;
    chain 137 (str "Syndicate Frame") 5101;
    chain 249 (str "Taiko") 167000;
    chain 47 (str "Telos") 40;
    chain 27 (str "Tenet") 1559;
    chain 258 (str "ThunderCore") 108;
    chain 75 (str "Tron") 1000001;
    chain 394 (str "U2U Solaris") 39;
    chain 362 (str "Unichain") 130;
    chain 419 (str "UNIT0") 88811;
    chain 488 (str "Vana") 1480;
    chain 395 (str "Vanar") 2040;
    chain 43 (str "Viction") 88;
    chain 301 (str "Vizing") 28518;
    chain 81 (str "Wemix") 1111;
    chain 269 (str "WorldChain") 480;
    chain 146 (str "X Layer") 196;
    chain 77 (str "XAI") 660279;
    chain 242 (str "XCHAIN") 94524;
    chain 420 (str "XDC") 50;
    chain 48 (str "XPLA") 37;
    chain 377 (str "XRP") 1000016;
    chain 487 (str "XRPL EVM") 1440000;
    chain 239 (str "Xterio") 2702128;
    chain 471 (str "Yominet EVM") 428962654539583;
    chain 481 (str "Zaar") 1335097526422335;
    chain 361 (str "ZERO") 543210;
    chain 94 (str "Zeta") 7000;
    chain 353 (str "Zircuit") 48900;
    chain 50 (str "zkFair") 42766;
    chain 136 (str "zkLink Nova") 810180;
    chain 41 (str "zkScroll") 534352;
    chain 51 (str "zkSync Era") 324;
    chain 56 (str "Zora") 7777777
].

(** [GASZIP_CHAINS[id]]: the entry under key [id], [None] for [undefined]. *)
Definition lookupChain (id : Z) : option ChainInfo :=
  option_map snd (find (fun e => (fst e =? id)%Z) GASZIP_CHAINS).

(** [!!GASZIP_CHAINS[id]] *)
Definition isKnown (id : Z) : bool :=
  match lookupChain id with
  | Some _ => true
  | None => false
  end.

End Registry.

(** ** Byte codec *)

Definition assertHex (input : jsstring) : result unit :=
  if negb (startsWith input (str "0x")) || negb (length input mod 2 =? 0)
  then Throw ExpectedHexString
  else Ok tt.

Definition hexToBytes (hex : jsstring) : result (list Z) :=
  let h := if startsWith hex (str "0x") then sliceFrom hex 2 else hex in
  if negb (length h mod 2 =? 0) then Throw InvalidHexLength
  else Ok (map (fun i => ToUint8 (parseInt16 (slice h (i * 2) (i * 2 + 2))))
               (seq 0 (length h / 2))).

Definition bytesToHex (bytes : list Z) : jsstring :=
  str "0x" ++ concat (map (fun b => padStart0 (toString16 b) 2) bytes).

(** [bytes[i]] used as an operand of a bitwise operator: [undefined]
    counts as 0. *)
Definition byteAt (bytes : list Z) (i : nat) : Z := nth i bytes 0%Z.

Definition readU16BE (bytes : list Z) (offset : nat) : Z :=
  Z.lor (Z.shiftl (byteAt bytes offset) 8) (byteAt bytes (offset + 1)).

(** ** Address / chain-id splitter *)

Module Split.
Record t : Type := mk {
  addressBytes : list Z;
  chainIds : list Z;
  leftovers : option (list Z)
}.
End Split.

Definition fixedLen (prefix : Z) : option nat :=
  if (prefix =? 0x01)%Z then Some 0
  else if (prefix =? 0x02)%Z then Some 20
  else if (prefix =? 0x04)%Z then Some 32
  else if (prefix =? 0x06)%Z then Some 20
  else None.

(** [for (let i = 0; i < tail.length; i += 2) chainIds.push(readU16BE(tail, i))]:
    [i] runs over the even offsets below [tail.length]. *)
Definition readChainIds (tail : list Z) : list Z :=
  map (fun j => readU16BE tail (j * 2)) (seq 0 ((length tail + 1) / 2)).

(** The backward scan [while (end - 2 >= 1) { ... }] of the variable-length
    path, from the loop state [(end, chainIdsRev)] to the state at exit.
    On natural numbers [end - 2] is truncated at 0, which leaves the test
    [end - 2 >= 1] unchanged. *)
Function scanTail (body : list Z) (end_ : nat) (chainIdsRev : list Z)
    {measure (fun e => e) end_} : nat * list Z :=
  if 1 <=? end_ - 2 then
    let val := readU16BE body (end_ - 2) in
    let isKnown := Registry.isKnown val in
    if negb isKnown && (0 <? length chainIdsRev) then (end_, chainIdsRev)
    else scanTail body (end_ - 2) (chainIdsRev ++ [val])
  else (end_, chainIdsRev).
Proof.
  intros body end_ chainIdsRev Hloop Hbreak. apply Nat.leb_le in Hloop. lia.
Defined.

Definition splitAddressAndChains (prefix : Z) (body : list Z) : result Split.t :=
  match fixedLen prefix with
  | Some fl =>
      if length body <? fl then Throw CalldataTooShort
      else
        let addressBytes := slice body 0 fl in
        let tail := sliceFrom body fl in
        if negb (length tail mod 2 =? 0) then Throw ChainTailNotEven
        else Ok (Split.mk addressBytes (readChainIds tail) None)
  | None =>
      if (prefix =? 0x03)%Z && (32 <=? length body)
         && ((length body - 32) mod 2 =? 0)
      then
        let addressBytes := slice body 0 32 in
        let tail := sliceFrom body 32 in
        Ok (Split.mk addressBytes (readChainIds tail) None)
      else
        let '(end_, chainIdsRev) := scanTail body (length body) [] in
        Ok (Split.mk (slice body 0 end_) (rev chainIdsRev) None)
  end.

(** ** Decoded payload *)

Inductive DecodedType : Type :=
| SELF | EVM | BASE58 | MOVE | XRP | INITIA | UNKNOWN.

(** An absent key and a key holding [undefined] are both [None]. *)
Record Destination : Type := mkDestination {
  evm : option jsstring;
  move : option jsstring;
  base58 : option jsstring;
  base58Hex : option jsstring;
  solanaLike : option bool;
  xrp : option jsstring;
  initia : option jsstring;
  initiaHex : option jsstring
}.

Definition emptyDestination : Destination :=
  mkDestination None None None None None None None None.

Record ChainIdEntry : Type := mkEntry {
  id : Z;
  name : option jsstring;
  nativeId : option Z
}.

Record GasZipDecoded : Type := mkDecoded {
  type : DecodedType;
  raw : jsstring;
  prefix : jsstring;
  destination : Destination;
  chainIds : list ChainIdEntry;
  leftoversHex : option jsstring
}.

(** [{ id, name: GASZIP_CHAINS[id]?.name, nativeId: GASZIP_CHAINS[id]?.nativeId }] *)
Definition annotate (id : Z) : ChainIdEntry :=
  mkEntry id
    (option_map Registry.name (Registry.lookupChain id))
    (option_map Registry.nativeId (Registry.lookupChain id)).

(** ** Decode operation *)

Section Decoder.

(** The encoders of the packages [bs58], [base-x] (with the XRPL alphabet)
    and [bech32]; [None] stands for a thrown exception. *)
Variable bs58_encode : list Z -> option jsstring.
Variable xrpb58_encode : list Z -> option jsstring.
Variable bech32_toWords : list Z -> option (list Z).
Variable bech32_encode : jsstring -> list Z -> option jsstring.

(** [try { f() } catch { }] around an assignment with initial value [''] *)
Definition orEmpty (r : option jsstring) : jsstring :=
  match r with
  | Some s => s
  | None => []
  end.

Definition decodeGasZipCalldata (input : jsstring) : result GasZipDecoded :=
  assertHex input ;;;
  data <- hexToBytes input ;;
  match data with
  | [] => Throw EmptyCalldataError
  | prefix :: body =>
      sp <- splitAddressAndChains prefix body ;;
      let addressBytes := Split.addressBytes sp in
      let mappedChains := map annotate (Split.chainIds sp) in
      let base (t : DecodedType) (d : Destination) :=
        {| type := t;
           raw := input;
           prefix := str "0x" ++ padStart0 (toString16 prefix) 2;
           chainIds := mappedChains;
           leftoversHex :=
             match Split.leftovers sp with
             | Some l => if length l =? 0 then None else Some (bytesToHex l)
             | None => None
             end;
           destination := d |} in
      let d0 := emptyDestination in
      if (prefix =? 0x01)%Z then Ok (base SELF d0)
      else if (prefix =? 0x02)%Z then
        if negb (length addressBytes =? 20) then Throw EvmAddressLength
        else
          Ok (base EVM
                (mkDestination (Some (bytesToHex addressBytes)) (move d0)
                   (base58 d0) (base58Hex d0) (solanaLike d0) (xrp d0)
                   (initia d0) (initiaHex d0)))
      else if (prefix =? 0x04)%Z then
        if negb (length addressBytes =? 32) then Throw MoveAddressLength
        else
          Ok (base MOVE
                (mkDestination (evm d0) (Some (bytesToHex addressBytes))
                   (base58 d0) (base58Hex d0) (solanaLike d0) (xrp d0)
                   (initia d0) (initiaHex d0)))
      else if (prefix =? 0x06)%Z then
        if negb (length addressBytes =? 20) then Throw InitiaAddressLength
        else
          let initiaHex_ := bytesToHex addressBytes in
          let initia_ :=
            match bech32_toWords addressBytes with
            | Some words => bech32_encode (str "init") words
            | None => None
            end in
          Ok (base INITIA
                (mkDestination (evm d0) (move d0) (base58 d0) (base58Hex d0)
                   (solanaLike d0) (xrp d0) initia_ (Some initiaHex_)))
      else if (prefix =? 0x03)%Z then
        let base58Hex_ := bytesToHex addressBytes in
        let base58Str := orEmpty (bs58_encode addressBytes) in
        let solanaLike_ := length addressBytes =? 32 in
        Ok (base BASE58
              (mkDestination (evm d0) (move d0) (Some base58Str)
                 (Some base58Hex_) (Some solanaLike_) (xrp d0) (initia d0)
                 (initiaHex d0)))
      else if (prefix =? 0x05)%Z then
        let xrp_ := orEmpty (xrpb58_encode addressBytes) in
        Ok (base XRP
              (mkDestination (evm d0) (move d0) (base58 d0) (base58Hex d0)
                 (solanaLike d0) (Some xrp_) (initia d0) (initiaHex d0)))
      else Ok (base UNKNOWN d0)
  end.

End Decoder.

(** * Vocabulary of the properties *)

(** [input] passes [assertHex] and holds the bytes [prefix :: body]. *)
Definition payload (input : jsstring) (prefix : Z) (body : list Z) : Prop :=
  assertHex input = Ok tt /\ hexToBytes input = Ok (prefix :: body).

(** The fixed-length families with their address lengths. *)
Definition fixedFamily (prefix : Z) (L : nat) : Prop :=
  In (prefix, L) [(0x01%Z, 0); (0x02%Z, 20); (0x04%Z, 32); (0x06%Z, 20)].

(** The big-endian 16-bit values at offsets 0, 2, ..., 2(k-1) of the bytes
    that follow the first [L] ones. *)
Definition tailIds (L k : nat) (body : list Z) : list Z :=
  map (fun i => readU16BE (skipn L body) (2 * i)) (seq 0 k).

(** Condition of the deterministic path of prefix 0x03. *)
Definition fastPath (body : list Z) : Prop :=
  32 <= length body /\ Nat.Even (length body - 32).

(** Prefixes and bodies that the specification sends to the heuristic. *)
Definition heuristicPath (prefix : Z) (body : list Z) : Prop :=
  prefix = 0x05%Z \/ (prefix = 0x03%Z /\ ~ fastPath body).

Definition known (v : Z) : Prop := Registry.isKnown v = true.

(** One iteration of the scan accepts the value it reads. *)
Definition accepts (body : list Z) (end_ : nat) (chainIdsRev : list Z) : Prop :=
  1 <= end_ - 2 /\
  (known (readU16BE body (end_ - 2)) \/ chainIdsRev = []).

(** The scan is over in this state. *)
Definition exits (body : list Z) (end_ : nat) (chainIdsRev : list Z) : Prop :=
  ~ 1 <= end_ - 2 \/
  (Registry.isKnown (readU16BE body (end_ - 2)) = false /\ chainIdsRev <> []).

(** The heuristic in the words of the specification: a cursor [end] and an
    accumulator; while [end - 2 >= 1] the value [v] at [end - 2] is accepted
    if and only if [v] is a key of the registry or nothing was accepted yet;
    otherwise the scan stops. *)
Module HeuristicSpec.

Definition isKey (v : Z) : Prop := In v (map fst Registry.GASZIP_CHAINS).

(** The scan over a registry given by its key predicate [key]; state:
    cursor and accumulator.  On natural numbers [end - 2] stops at 0, which
    does not change the test [end - 2 >= 1]. *)
Inductive scanWith (key : Z -> Prop) (body : list Z)
  : nat -> list Z -> nat -> list Z -> Prop :=
| scan_done end_ acc :
    ~ end_ - 2 >= 1 ->
    scanWith key body end_ acc end_ acc
| scan_stop end_ acc v :
    end_ - 2 >= 1 ->
    v = readU16BE body (end_ - 2) ->
    ~ (key v \/ acc = []) ->
    scanWith key body end_ acc end_ acc
| scan_accept end_ acc v end' acc' :
    end_ - 2 >= 1 ->
    v = readU16BE body (end_ - 2) ->
    key v \/ acc = [] ->
    scanWith key body (end_ - 2) (acc ++ [v]) end' acc' ->
    scanWith key body end_ acc end' acc'.

Definition scan : list Z -> nat -> list Z -> nat -> list Z -> Prop :=
  scanWith isKey.

(** [addressBytes = body[0:end]], and the accumulator reversed. *)
Definition split (body addressBytes chainIds : list Z) : Prop :=
  exists end_ acc,
    scan body (length body) [] end_ acc /\
    addressBytes = firstn end_ body /\
    chainIds = rev acc.

End HeuristicSpec.

(** The result record for a given kind and destination, with the fields
    that do not depend on the kind. *)
Definition decoded (input : jsstring) (prefix : Z) (ids : list Z)
    (t : DecodedType) (d : Destination) : GasZipDecoded :=
  {| type := t;
     raw := input;
     prefix := str "0x" ++ padStart0 (toString16 prefix) 2;
     destination := d;
     chainIds := map annotate ids;
     leftoversHex := None |}.

(** The hex form of the address, in the field that the kind gives it. *)
Definition addressHex (d : GasZipDecoded) : option jsstring :=
  match type d with
  | EVM => evm (destination d)
  | MOVE => move (destination d)
  | INITIA => initiaHex (destination d)
  | BASE58 => base58Hex (destination d)
  | SELF | XRP | UNKNOWN => None
  end.

Definition isHexChar (c : N) : bool :=
  match hexDigitValue c with
  | Some _ => true
  | None => false
  end.

(** The input contract [^0x([0-9a-fA-F]{2})+$]: the prefix 0x, then one
    or more pairs of hex digits. *)
Definition validHex (input : jsstring) : Prop :=
  startsWith input (str "0x") = true /\
  Nat.Even (length input) /\
  2 < length input /\
  forallb isHexChar (sliceFrom input 2) = true.

(** ** Example inputs *)

(** Encoders that always throw, and the decoder built on them. *)
Definition throwing {A B} : A -> option B := fun _ => None.

Definition decodeNoText : jsstring -> result GasZipDecoded :=
  decodeGasZipCalldata throwing throwing throwing (fun _ => throwing).

(** 0x02, twenty bytes 0x11, chain id 0x0036. *)
Definition evmPayload : jsstring :=
  str "0x0211111111111111111111111111111111111111110036".
Definition evmBody : list Z := repeat 0x11%Z 20 ++ [0x00; 0x36]%Z.

(** 0x02 and nineteen bytes. *)
Definition shortEvmPayload : jsstring :=
  str "0x0211111111111111111111111111111111111111".
Definition shortEvmBody : list Z := repeat 0x11%Z 19.

(** 0x06, twenty bytes 0x33, chain id 0x0036. *)
Definition initiaPayload : jsstring :=
  str "0x0633333333333333333333333333333333333333330036".
Definition initiaBody : list Z := repeat 0x33%Z 20 ++ [0x00; 0x36]%Z.
Definition initiaSplit : Split.t := Split.mk (repeat 0x33%Z 20) [54%Z] None.

(** 0x03, thirty-two bytes 0x22, chain id 0x0036. *)
Definition solanaPayload : jsstring :=
  str "0x0322222222222222222222222222222222222222222222222222222222222222220036".
Definition solanaBody : list Z := repeat 0x22%Z 32 ++ [0x00; 0x36]%Z.

(** 0x05, four address bytes, chain ids 0x0036 and 0x0999; 0x0999 is not
    in the registry. *)
Definition xrpPayload : jsstring := str "0x05aabbccdd00360999".
Definition xrpBody : list Z := [0xaa; 0xbb; 0xcc; 0xdd; 0x00; 0x36; 0x09; 0x99]%Z.

(** The bare prefix 0x05. *)
Definition barePayload : jsstring := str "0x05".

(** Prefix 0x07 and five bytes. *)
Definition unknownPayload : jsstring := str "0x07aabbcc0036".
Definition unknownBody : list Z := [0xaa; 0xbb; 0xcc; 0x00; 0x36]%Z.

(** An odd number of characters after the prefix, and two characters that
    are not hex digits. *)
Definition oddPayload : jsstring := str "0x123".
Definition nonHexPayload : jsstring := str "0xzz".

(** ** Vocabulary of the further properties *)

(** A value that a [Uint8Array] element can hold. *)
Definition isByte (b : Z) : Prop := (0 <= b < 256)%Z.

(** The kind that the dispatcher gives to a prefix byte. *)
Definition kindOf (p : Z) : DecodedType :=
  if (p =? 0x01)%Z then SELF
  else if (p =? 0x02)%Z then EVM
  else if (p =? 0x03)%Z then BASE58
  else if (p =? 0x04)%Z then MOVE
  else if (p =? 0x05)%Z then XRP
  else if (p =? 0x06)%Z then INITIA
  else UNKNOWN.

(** Lowercase hex digits, the characters [bytesToHex] writes. *)
Definition isLowerHexChar (c : N) : bool :=
  ((48 <=? c) && (c <=? 57) || (97 <=? c) && (c <=? 102))%N.

(** The characters of [bytesToHex] after the 0x prefix. *)
Definition hexPairs (bytes : list Z) : jsstring :=
  concat (map (fun b => padStart0 (toString16 b) 2) bytes).

(** The split of [prefix] and [body] is made by the backward scan: the
    prefix has no fixed length and the deterministic path of 0x03 does not
    apply.  This holds for 0x05, for 0x03 off the fast path and for every
    prefix outside 0x01..0x06. *)
Definition scanPath (prefix : Z) (body : list Z) : Prop :=
  fixedLen prefix = None /\ ~ (prefix = 0x03%Z /\ fastPath body).

(** * The fetch script

    The pure helpers of [src/fetch-gaszip-base.ts]: the CSV escaping of a
    row, the formatting of a wei amount and the parsing of the command
    line.  The HyperSync client, the file stream and the loop of [main]
    that drives them are not modelled. *)

Module Fetch.

(** [s.includes(c)] for a string [c] of one character. *)
Definition includes (s : jsstring) (c : N) : bool := existsb (N.eqb c) s.

(** The global replace of [csvEscape]: every double quote (code unit 34)
    becomes two. *)
Definition doubleQuotes (s : jsstring) : jsstring :=
  flat_map (fun c => if (c =? 34)%N then [34; 34]%N else [c]) s.

(** [csvEscape(val)]: [val] is given by [String(val)], and is [None] when
    it is undefined or null. *)
Definition csvEscape (val : option jsstring) : jsstring :=
  let s := match val with
           | None => []
           | Some v => v
           end in
  if includes s 34 || includes s 44 || includes s 10
  then [34%N] ++ doubleQuotes s ++ [34%N]
  else s.

(** [l.join(sep)] on an array of strings. *)
Definition join (sep : jsstring) (l : list jsstring) : jsstring :=
  match l with
  | [] => []
  | x :: rest => x ++ flat_map (fun y => sep ++ y) rest
  end.

(** The line of a transaction in [main]: [[...].map(csvEscape).join(',')]. *)
Definition csvRow (fields : list (option jsstring)) : jsstring :=
  join [44%N] (map csvEscape fields).

(** Decimal digits of a non-negative integer, most significant first. *)
Fixpoint decDigits (fuel : nat) (n : Z) (acc : jsstring) : jsstring :=
  match fuel with
  | O => acc
  | S fuel' =>
      let acc' := Z.to_N (48 + n mod 10) :: acc in
      if (n <? 10)%Z then acc' else decDigits fuel' (n / 10) acc'
  end.

(** [n.toString()] for a bigint [n]. *)
Definition BigInt_toString (n : Z) : jsstring :=
  if (n <? 0)%Z then 45%N :: decDigits (S (Z.to_nat (Z.log2 (- n)))) (- n) []
  else decDigits (S (Z.to_nat (Z.log2 n))) n [].

Fixpoint dropZeros (s : jsstring) : jsstring :=
  match s with
  | c :: s' => if (c =? 48)%N then dropZeros s' else s
  | [] => []
  end.

(** [s.replace(/0+$/, '')] *)
Definition stripTrailingZeros (s : jsstring) : jsstring :=
  rev (dropZeros (rev s)).

(** [formatEth(wei)]; [None] is [undefined].  Bigint division truncates
    toward zero and the remainder has the sign of the dividend. *)
Definition formatEth (wei : option Z) : jsstring :=
  match wei with
  | None => []
  | Some w =>
      let base := (10 ^ 18)%Z in
      let whole := Z.quot w base in
      let frac := Z.rem w base in
      let fracStr := stripTrailingZeros (padStart0 (BigInt_toString frac) 18) in
      if 0 <? length fracStr
      then BigInt_toString whole ++ [46%N] ++ fracStr
      else BigInt_toString whole
  end.

(** [a === b] on strings. *)
Definition strEq (a b : jsstring) : bool :=
  if list_eq_dec N.eq_dec a b then true else false.

Section Args.

(** JavaScript numbers and [Number(x)] for [x] a string or undefined. *)
Variable num : Type.
Variable Number : option jsstring -> num.

(** An absent key and a key holding [undefined] are both [None]. *)
Record CliArgs : Type := mkArgs {
  from : option num;
  to : option num;
  out : option jsstring;
  addr : option jsstring;
  url : option jsstring;
  apiToken : option jsstring;
  limit : option num
}.

Definition noArgs : CliArgs := mkArgs None None None None None None None.

(** The loop of [parseArgs] from the element [a] on: a flag takes the next
    element, [argv[++i]], as its value, and anything else is skipped. *)
Fixpoint parseArgsFrom (args : CliArgs) (argv : list jsstring) : CliArgs :=
  match argv with
  | [] => args
  | a :: rest =>
      let v := hd_error rest in
      let next (args' : CliArgs) :=
        match rest with
        | [] => args'
        | _ :: rest' => parseArgsFrom args' rest'
        end in
      if strEq a (str "--from") then
        next (mkArgs (Some (Number v)) (to args) (out args) (addr args)
                (url args) (apiToken args) (limit args))
      else if strEq a (str "--to") then
        next (mkArgs (from args) (Some (Number v)) (out args) (addr args)
                (url args) (apiToken args) (limit args))
      else if strEq a (str "--out") then
        next (mkArgs (from args) (to args) v (addr args) (url args)
                (apiToken args) (limit args))
      else if strEq a (str "--addr") then
        next (mkArgs (from args) (to args) (out args) v (url args)
                (apiToken args) (limit args))
      else if strEq a (str "--url") then
        next (mkArgs (from args) (to args) (out args) (addr args) v
                (apiToken args) (limit args))
      else if strEq a (str "--api-token") then
        next (mkArgs (from args) (to args) (out args) (addr args) (url args)
                v (limit args))
      else if strEq a (str "--token") then
        next (mkArgs (from args) (to args) (out args) (addr args) (url args)
                v (limit args))
      else if strEq a (str "--limit") then
        next (mkArgs (from args) (to args) (out args) (addr args) (url args)
                (apiToken args) (Some (Number v)))
      else parseArgsFrom args rest
  end.

Definition parseArgs (argv : list jsstring) : CliArgs :=
  parseArgsFrom noArgs argv.

End Args.

End Fetch.

(** ** Vocabulary for the fetch script *)

(** A reader of one CSV record in the way of RFC 4180: a comma outside
    quotes ends a field, a quote opens or closes a quoted part, and two
    quotes inside a quoted part stand for one. *)
Fixpoint readRecord (quoted : bool) (field : jsstring) (s : jsstring)
  : list jsstring :=
  match s with
  | [] => [field]
  | c :: s' =>
      if quoted then
        if (c =? 34)%N then
          match s' with
          | 34%N :: s'' => readRecord true (field ++ [34%N]) s''
          | _ => readRecord false field s'
          end
        else readRecord true (field ++ [c]) s'
      else if (c =? 44)%N then field :: readRecord false [] s'
      else if (c =? 34)%N then readRecord true field s'
      else readRecord false (field ++ [c]) s'
  end.

(** What may follow a field in a record: nothing, or a comma. *)
Definition fieldEnd (rest : jsstring) : Prop :=
  rest = [] \/ exists r, rest = 44%N :: r.

(** The text of a value handed to [csvEscape]. *)
Definition textOf (val : option jsstring) : jsstring :=
  match val with
  | None => []
  | Some v => v
  end.

(** The number that a string of decimal digits writes. *)
Definition decimalValue (s : jsstring) : Z :=
  fold_left (fun a c => (a * 10 + (Z.of_N c - 48))%Z) s 0%Z.

Definition isDigit (c : N) : Prop := (48 <= c <= 57)%N.

(** [v] is the element of [argv] right after an element [flag]. *)
Definition follows (flag : jsstring) (argv : list jsstring) (v : jsstring) : Prop :=
  exists pre post, argv = pre ++ flag :: v :: post.

(** ** Further example inputs *)

Definition sampleBytes : list Z := [0; 5; 255; 16; 171]%Z.

(** The address and the tail of [xrpBody]. *)
Definition xrpAddress : list Z := [0xaa; 0xbb; 0xcc; 0xdd]%Z.
Definition xrpTail : list Z := [0x00; 0x36; 0x09; 0x99]%Z.
Definition xrpSplit : Split.t := Split.mk xrpAddress [54; 2457]%Z None.

(** The result of the decode on [evmPayload]. *)
Definition evmDecoded : GasZipDecoded :=
  {| type := EVM;
     raw := evmPayload;
     prefix := str "0x02";
     destination :=
       mkDestination (Some (str "0x1111111111111111111111111111111111111111"))
         None None None None None None None;
     chainIds := [mkEntry 54 (Some (str "Base Mainnet")) (Some 8453%Z)];
     leftoversHex := None |}.

(** A row with a comma, a double quote and a line feed in its values, and
    an undefined value. *)
Definition sampleRow : list (option jsstring) :=
  [Some (str "a,b"); None; Some (str "say " ++ [34%N] ++ str "hi" ++ [34%N]);
   Some (str "two" ++ [10%N] ++ str "lines"); Some (str "plain")].

(** One ether and a half, in wei. *)
Definition sampleWei : Z := 1500000000000000000%Z.

(** A command line, and a stand-in for [Number] that keeps its argument. *)
Definition sampleArgv : list jsstring :=
  [str "--out"; str "a.csv"; str "--token"; str "t"; str "--from"; str "7"].
Definition keepText : option jsstring -> option jsstring := fun x => x.

(** * Properties *)

(** ** Lists and slices *)

Lemma slice_0 {A} (l : list A) (n : nat) : slice l 0 n = firstn n l.
Proof. unfold slice. rewrite Nat.sub_0_r. reflexivity. Qed.

Lemma removelast_rev {A} (l : list A) : removelast (rev l) = rev (tl l).
Proof.
  destruct l as [|a l]; [reflexivity|].
  simpl. apply removelast_last.
Qed.

Lemma even_mod2 (n : nat) : (n mod 2 =? 0) = Nat.even n.
Proof.
  rewrite <- Nat.bit0_mod, Nat.bit0_odd, <- Nat.negb_even.
  destruct (Nat.even n); reflexivity.
Qed.

Lemma readChainIds_even (tail : list Z) (k : nat) :
  length tail = 2 * k ->
  readChainIds tail = map (fun i => readU16BE tail (2 * i)) (seq 0 k).
Proof.
  intros H. unfold readChainIds. rewrite H.
  replace ((2 * k + 1) / 2) with k.
  - apply map_ext. intros j. rewrite Nat.mul_comm. reflexivity.
  - apply (Nat.div_unique _ 2 k 1); lia.
Qed.

(** ** The codec on examples *)

(** [parseInt] on pairs that are not two hex digits: no digit gives NaN and
    byte 0, a sign is honoured, leading white space is skipped, and the
    digits stop at the first other character. *)
Example hexToBytes_lenient :
  hexToBytes (str "0xzz-1 a1z0x7F") = Ok [0; 255; 10; 1; 0; 127]%Z.
Proof. reflexivity. Qed.

Example hexToBytes_without_prefix : hexToBytes (str "0a1") = Throw InvalidHexLength.
Proof. reflexivity. Qed.

Example bytesToHex_pads : bytesToHex [0; 5; 255; 16; 171]%Z = str "0x0005ff10ab".
Proof. reflexivity. Qed.

(** ** The registry *)

(** No key occurs twice in the table, so the first match of [lookupChain]
    is the only one. *)
Lemma registry_keys_distinct : NoDup (map fst Registry.GASZIP_CHAINS).
Proof.
  assert (H : nodup Z.eq_dec (map fst Registry.GASZIP_CHAINS)
              = map fst Registry.GASZIP_CHAINS) by (vm_compute; reflexivity).
  rewrite <- H. apply NoDup_nodup.
Qed.

Example lookup_base : Registry.lookupChain 54 = Some (Registry.mkChain (str "Base Mainnet") 8453).
Proof. reflexivity. Qed.

Example lookup_unregistered : Registry.lookupChain 2457 = None.
Proof. reflexivity. Qed.

Lemma find_key_In {V} (tbl : list (Z * V)) (v : Z) :
  find (fun e => (fst e =? v)%Z) tbl <> None <-> In v (map fst tbl).
Proof.
  induction tbl as [|[k x] tbl IH]; simpl.
  - split; [congruence | contradiction].
  - destruct (Z.eqb_spec k v) as [->|Hne].
    + split; [intros _; left; reflexivity | discriminate].
    + rewrite IH. split; [intros H; right; exact H | intros [H|H]; [contradiction | exact H]].
Qed.

Lemma isKnown_isKey (v : Z) : known v <-> HeuristicSpec.isKey v.
Proof.
  unfold known, HeuristicSpec.isKey, Registry.isKnown, Registry.lookupChain.
  rewrite <- find_key_In.
  destruct (find _ Registry.GASZIP_CHAINS) as [e|].
  - split; [discriminate | reflexivity].
  - split; [discriminate | congruence].
Qed.

(** ** The backward scan *)

Lemma scanTail_eq (body : list Z) (end_ : nat) (chainIdsRev : list Z) :
  scanTail body end_ chainIdsRev =
  if 1 <=? end_ - 2 then
    let val := readU16BE body (end_ - 2) in
    if negb (Registry.isKnown val) && (0 <? length chainIdsRev)
    then (end_, chainIdsRev)
    else scanTail body (end_ - 2) (chainIdsRev ++ [val])
  else (end_, chainIdsRev).
Proof.
  rewrite scanTail_equation. reflexivity.
Qed.

Lemma accepts_or_exits body e acc :
  {accepts body e acc /\ ~ exits body e acc} +
  {exits body e acc /\ ~ accepts body e acc}.
Proof.
  unfold accepts, exits, known.
  destruct (le_lt_dec 1 (e - 2)) as [H|H].
  - destruct (Registry.isKnown (readU16BE body (e - 2))) eqn:K.
    + left. split; [auto|]. intros [?|[? _]]; [lia|discriminate].
    + destruct acc as [|a acc].
      * left. split; [auto|]. intros [?|[_ ?]]; [lia|congruence].
      * right. split; [right; split; [reflexivity|discriminate]|].
        intros [_ [?|?]]; discriminate.
  - right. split; [left; lia|]. intros [? _]. lia.
Qed.

Lemma scanTail_accept body e acc :
  accepts body e acc ->
  scanTail body e acc = scanTail body (e - 2) (acc ++ [readU16BE body (e - 2)]).
Proof.
  intros [H1 H2]. rewrite scanTail_eq.
  rewrite (proj2 (Nat.leb_le _ _) H1). cbv zeta.
  destruct H2 as [-> | ->]; [reflexivity|].
  simpl. rewrite andb_false_r. reflexivity.
Qed.

Lemma scanTail_exit body e acc :
  exits body e acc -> scanTail body e acc = (e, acc).
Proof.
  intros H. rewrite scanTail_eq.
  destruct (Nat.leb_spec 1 (e - 2)) as [H1|H1]; [|reflexivity].
  destruct H as [H|[H2 H3]]; [lia|].
  cbv zeta. rewrite H2. destruct acc; [congruence|reflexivity].
Qed.

(** Invariant rule for the loop: a property of the loop state that every
    accepting iteration keeps holds at exit, where the exit test holds too. *)
Lemma scanTail_invariant (body : list Z) (P : nat -> list Z -> Prop) :
  (forall e acc, P e acc -> accepts body e acc ->
                 P (e - 2) (acc ++ [readU16BE body (e - 2)])) ->
  forall e acc, P e acc ->
    P (fst (scanTail body e acc)) (snd (scanTail body e acc)) /\
    exits body (fst (scanTail body e acc)) (snd (scanTail body e acc)).
Proof.
  intros Hstep e.
  induction e as [e IH] using lt_wf_ind. intros acc HP.
  destruct (accepts_or_exits body e acc) as [[Ha _]|[Hx _]].
  - rewrite (scanTail_accept Ha).
    apply IH; [destruct Ha; lia|]. apply Hstep; assumption.
  - rewrite (scanTail_exit Hx). simpl. split; assumption.
Qed.

Lemma scanTail_short body e acc : e < 3 -> scanTail body e acc = (e, acc).
Proof. intros H. apply scanTail_exit. left. lia. Qed.

Lemma scanTail_end_pos body e acc : 1 <= e -> 1 <= fst (scanTail body e acc).
Proof.
  intros H.
  apply (scanTail_invariant (body := body) (fun e' _ => 1 <= e')); [|exact H].
  intros e' _ _ [Ha _]. lia.
Qed.

Lemma scanTail_consumed body e acc :
  fst (scanTail body e acc) + 2 * length (snd (scanTail body e acc))
  = e + 2 * length acc.
Proof.
  apply (scanTail_invariant (body := body)
           (fun e' acc' => e' + 2 * length acc' = e + 2 * length acc));
    [|reflexivity].
  intros e' acc' H [Ha _]. rewrite length_app. simpl. lia.
Qed.

Lemma scanTail_known body e acc :
  Forall known (tl acc) -> Forall known (tl (snd (scanTail body e acc))).
Proof.
  intros H.
  apply (scanTail_invariant (body := body) (fun _ acc' => Forall known (tl acc')));
    [|exact H].
  intros e' acc' H' [_ [Hk | ->]]; [|constructor].
  destruct acc' as [|a acc']; [constructor|].
  simpl in *. apply Forall_app. split; [assumption|]. repeat constructor. exact Hk.
Qed.

(** The scan of the source is a run of the specification's scan. *)
Lemma scanTail_scan body e acc :
  HeuristicSpec.scan body e acc
    (fst (scanTail body e acc)) (snd (scanTail body e acc)).
Proof.
  revert acc. induction e as [e IH] using lt_wf_ind. intros acc.
  destruct (accepts_or_exits body e acc) as [[Ha _]|[Hx _]].
  - rewrite (scanTail_accept Ha). destruct Ha as [H1 H2].
    eapply HeuristicSpec.scan_accept; [exact H1 | reflexivity | | apply IH; lia].
    destruct H2 as [H2|H2]; [left; apply isKnown_isKey; exact H2 | right; exact H2].
  - rewrite (scanTail_exit Hx). simpl. destruct Hx as [Hx|[Hk Hacc]].
    + apply HeuristicSpec.scan_done. exact Hx.
    + destruct (le_lt_dec 1 (e - 2)) as [H1|H1].
      * eapply HeuristicSpec.scan_stop; [exact H1 | reflexivity |].
        intros [Hkey|Hnil]; [|contradiction].
        apply isKnown_isKey in Hkey. unfold known in Hkey. congruence.
      * apply HeuristicSpec.scan_done. lia.
Qed.

(** The specification's scan has one outcome only. *)
Lemma scan_functional body e acc e1 acc1 e2 acc2 :
  HeuristicSpec.scan body e acc e1 acc1 ->
  HeuristicSpec.scan body e acc e2 acc2 ->
  e1 = e2 /\ acc1 = acc2.
Proof.
  intros H1. revert e2 acc2.
  induction H1 as [e acc Hn | e acc v Hge Hv Hno | e acc v e' acc' Hge Hv Hyes Hrun IH];
    intros e2 acc2 H2; inversion H2; subst; auto; try contradiction.
Qed.

(** ** The splitter *)

Lemma fixedFamily_fixedLen p L : fixedFamily p L -> fixedLen p = Some L.
Proof.
  intros [H|[H|[H|[H|[]]]]]; inversion H; reflexivity.
Qed.

Lemma split_fixed p L body :
  fixedLen p = Some L ->
  splitAddressAndChains p body =
    if length body <? L then Throw CalldataTooShort
    else if negb (Nat.even (length body - L)) then Throw ChainTailNotEven
    else Ok (Split.mk (firstn L body) (readChainIds (skipn L body)) None).
Proof.
  intros H. unfold splitAddressAndChains. rewrite H.
  unfold sliceFrom. rewrite slice_0, length_skipn, even_mod2. reflexivity.
Qed.

Lemma split_fast body :
  fastPath body ->
  splitAddressAndChains 0x03 body =
    Ok (Split.mk (firstn 32 body) (readChainIds (skipn 32 body)) None).
Proof.
  intros [H1 H2]. unfold splitAddressAndChains.
  change (fixedLen 3) with (@None nat). cbv iota.
  rewrite even_mod2, (proj2 (Nat.leb_le _ _) H1).
  apply Nat.even_spec in H2. rewrite H2.
  unfold sliceFrom. rewrite slice_0. reflexivity.
Qed.

Lemma split_scan p body :
  fixedLen p = None ->
  (p =? 0x03)%Z && (32 <=? length body) && ((length body - 32) mod 2 =? 0) = false ->
  splitAddressAndChains p body =
    Ok (Split.mk (firstn (fst (scanTail body (length body) [])) body)
                 (rev (snd (scanTail body (length body) [])))
                 None).
Proof.
  intros H1 H2. unfold splitAddressAndChains. rewrite H1, H2.
  destruct (scanTail body (length body) []) as [e acc].
  rewrite slice_0. reflexivity.
Qed.

Lemma heuristicPath_scan p body :
  heuristicPath p body ->
  fixedLen p = None /\
  (p =? 0x03)%Z && (32 <=? length body) && ((length body - 32) mod 2 =? 0) = false.
Proof.
  intros [->|[-> Hn]]; split; try reflexivity.
  change (3 =? 3)%Z with true. cbv iota beta. rewrite andb_true_l.
  destruct (Nat.leb_spec 32 (length body)) as [H|H]; [|reflexivity].
  rewrite even_mod2. simpl.
  destruct (Nat.even (length body - 32)) eqn:E; [|reflexivity].
  exfalso. apply Hn. split; [exact H | apply Nat.even_spec; exact E].
Qed.

Lemma unknown_scan (p : Z) (body : list Z) :
  (p < 0x01 \/ 0x06 < p)%Z ->
  fixedLen p = None /\
  (p =? 0x03)%Z && (32 <=? length body) && ((length body - 32) mod 2 =? 0) = false.
Proof.
  intros H. unfold fixedLen.
  destruct (Z.eqb_spec p 1); [lia|]. destruct (Z.eqb_spec p 2); [lia|].
  destruct (Z.eqb_spec p 4); [lia|]. destruct (Z.eqb_spec p 6); [lia|].
  destruct (Z.eqb_spec p 3); [lia|]. split; reflexivity.
Qed.

(** The splitter never fills in [leftovers]. *)
Lemma split_leftovers p body sp :
  splitAddressAndChains p body = Ok sp -> Split.leftovers sp = None.
Proof.
  unfold splitAddressAndChains.
  destruct (fixedLen p) as [fl|].
  - destruct (length body <? fl); [discriminate|].
    destruct (negb _); [discriminate|].
    intros H. inversion H. reflexivity.
  - destruct (_ && _).
    + intros H. inversion H. reflexivity.
    + destruct (scanTail _ _ _). intros H. inversion H. reflexivity.
Qed.

Lemma split_fixed_length p L body sp :
  fixedLen p = Some L ->
  splitAddressAndChains p body = Ok sp ->
  length (Split.addressBytes sp) = L.
Proof.
  intros HL. rewrite (@split_fixed p L body HL).
  destruct (Nat.ltb_spec (length body) L) as [H|H]; [discriminate|].
  destruct (negb _); [discriminate|].
  intros E. inversion E. simpl. apply firstn_length_le. exact H.
Qed.

(** The splitter throws the two errors of the fixed-length path only. *)
Lemma split_errors p body e :
  splitAddressAndChains p body = Throw e ->
  e = CalldataTooShort \/ e = ChainTailNotEven.
Proof.
  unfold splitAddressAndChains.
  destruct (fixedLen p) as [fl|].
  - destruct (length body <? fl); [intros H; inversion H; auto|].
    destruct (negb _); [intros H; inversion H; auto | discriminate].
  - destruct (_ && _); [discriminate|].
    destruct (scanTail _ _ _). discriminate.
Qed.

Lemma map_id_annotate (ids : list Z) : map id (map annotate ids) = ids.
Proof.
  rewrite map_map. simpl. apply map_id.
Qed.

Lemma removelast_map {A B} (f : A -> B) (l : list A) :
  removelast (map f l) = map f (removelast l).
Proof.
  induction l as [|a [|b l] IH]; try reflexivity.
  change (f a :: removelast (map f (b :: l)) = f a :: map f (removelast (b :: l))).
  rewrite IH. reflexivity.
Qed.

Lemma known_annotate (v : Z) : known v -> name (annotate v) <> None.
Proof.
  unfold known, Registry.isKnown, annotate. simpl.
  destruct (Registry.lookupChain v); [discriminate | congruence].
Qed.

Lemma byteAt_skipn (l : list Z) (n i : nat) :
  byteAt (skipn n l) i = byteAt l (n + i).
Proof.
  unfold byteAt. revert l. induction n as [|n IH]; intros l; [reflexivity|].
  destruct l as [|a l]; simpl; [destruct i; reflexivity | apply IH].
Qed.

Lemma readU16BE_skipn (l : list Z) (n i : nat) :
  readU16BE (skipn n l) i = readU16BE l (n + i).
Proof.
  unfold readU16BE. rewrite !byteAt_skipn, Nat.add_assoc. reflexivity.
Qed.

Lemma assertHex_ok (s : jsstring) :
  assertHex s = Ok tt <->
  startsWith s (str "0x") = true /\ Nat.Even (length s).
Proof.
  unfold assertHex. rewrite even_mod2, <- Nat.even_spec.
  destruct (startsWith s (str "0x")), (Nat.even (length s)); simpl;
    intuition (try discriminate; try reflexivity).
Qed.

Lemma assertHex_throw (s : jsstring) :
  assertHex s = Throw ExpectedHexString <->
  startsWith s (str "0x") = false \/ Nat.Odd (length s).
Proof.
  unfold assertHex. rewrite even_mod2, <- Nat.odd_spec, <- Nat.negb_even.
  destruct (startsWith s (str "0x")), (Nat.even (length s)); simpl;
    intuition (try discriminate; try reflexivity).
Qed.

Lemma startsWith_0x_length (s : jsstring) :
  startsWith s (str "0x") = true ->
  length s = 2 + length (sliceFrom s 2).
Proof.
  unfold startsWith.
  destruct (list_eq_dec _ _ _) as [E|E]; [intros _|discriminate].
  destruct s as [|a [|b s]]; try discriminate. reflexivity.
Qed.

Lemma failsWith_Throw {A} (e : DecodeError) (k : ErrorKind) :
  failsWith (@Throw A e) k <-> errorKind e = k.
Proof.
  unfold failsWith. split.
  - intros [e' [H1 H2]]. inversion H1. subst e'. exact H2.
  - intros H. exists e. split; [reflexivity | exact H].
Qed.

Lemma failsWith_Ok {A} (a : A) (k : ErrorKind) : ~ failsWith (Ok a) k.
Proof. intros [e [H _]]. discriminate. Qed.

(** After [assertHex], [hexToBytes] does not throw. *)
Lemma assertHex_hexToBytes (s : jsstring) :
  assertHex s = Ok tt -> exists data, hexToBytes s = Ok data.
Proof.
  intros H. apply assertHex_ok in H. destruct H as [H1 H2].
  unfold hexToBytes. rewrite H1.
  rewrite (startsWith_0x_length s H1) in H2.
  apply Nat.even_spec in H2.
  change (Nat.even (length (sliceFrom s 2)) = true) in H2.
  rewrite even_mod2, H2. simpl. eexists. reflexivity.
Qed.

(** ** Values of the chain ids *)

Lemma byteAt_isByte (bytes : list Z) (i : nat) :
  Forall isByte bytes -> isByte (byteAt bytes i).
Proof.
  intros H. unfold byteAt.
  destruct (nth_in_or_default i bytes 0%Z) as [Hin | ->].
  - exact (proj1 (Forall_forall _ _) H _ Hin).
  - unfold isByte. lia.
Qed.

Lemma lor_shiftl_8 (hi lo : Z) :
  (0 <= hi)%Z -> isByte lo ->
  Z.lor (Z.shiftl hi 8) lo = (hi * 256 + lo)%Z.
Proof.
  intros Hhi [Hlo0 Hlo1].
  rewrite Z.shiftl_mul_pow2 by lia. change (2 ^ 8)%Z with 256%Z.
  rewrite <- Z.lxor_lor, <- Z.add_nocarry_lxor; try reflexivity.
  all: apply Z.bits_inj'; intros n Hn; rewrite Z.land_spec, Z.bits_0.
  all: destruct (Z.ltb_spec n 8) as [Hlt|Hge].
  all: try (replace (hi * 256)%Z with (hi * 2 ^ 8)%Z by reflexivity;
            rewrite Z.mul_pow2_bits_low by lia; reflexivity).
  all: rewrite andb_comm;
    replace (Z.testbit lo n) with false; [reflexivity|];
    symmetry; destruct (Z.eq_dec lo 0) as [->|Hne];
    [apply Z.bits_0 | apply Z.bits_above_log2; [lia|]];
    apply Z.lt_le_trans with 8%Z; [|exact Hge];
    apply Z.log2_lt_pow2; lia.
Qed.

Lemma readU16BE_value (bytes : list Z) (offset : nat) :
  Forall isByte bytes ->
  readU16BE bytes offset
    = (byteAt bytes offset * 256 + byteAt bytes (offset + 1))%Z.
Proof.
  intros H. unfold readU16BE.
  pose proof (byteAt_isByte offset H) as [H0 _].
  apply lor_shiftl_8; [exact H0 | apply byteAt_isByte; exact H].
Qed.

Lemma readU16BE_range (bytes : list Z) (offset : nat) :
  Forall isByte bytes -> (0 <= readU16BE bytes offset < 65536)%Z.
Proof.
  intros H. rewrite (readU16BE_value offset H).
  pose proof (byteAt_isByte offset H) as [? ?].
  pose proof (byteAt_isByte (offset + 1) H) as [? ?]. lia.
Qed.

Lemma hexToBytes_isByte (s : jsstring) (data : list Z) :
  hexToBytes s = Ok data -> Forall isByte data.
Proof.
  unfold hexToBytes. destruct (negb _); [discriminate|].
  intros E. inversion E. apply Forall_map. apply Forall_forall. intros i _.
  unfold ToUint8, isByte. destruct (parseInt16 _); [|lia].
  apply Z.mod_pos_bound. lia.
Qed.

Lemma singleton_nth_error {A} (l : list A) (v : A) :
  length l = 1 -> nth_error l 0 = Some v -> l = [v].
Proof.
  destruct l as [|a [|b l]]; try discriminate.
  intros _ H. inversion H. reflexivity.
Qed.

(** The id at place [i] of a tail is 256 times the byte at [L + 2i] plus
    the byte after it. *)
Lemma tailIds_value (L k : nat) (body : list Z) (i : nat) :
  Forall isByte body ->
  i < k ->
  nth_error (tailIds L k body) i
  = Some (256 * nth (L + 2 * i) body 0 + nth (L + 2 * i + 1) body 0)%Z.
Proof.
  intros Hb Hi. unfold tailIds.
  assert (Hseq : nth_error (seq 0 k) i = Some i).
  { rewrite (nth_error_nth' (seq 0 k) 0) by (rewrite length_seq; exact Hi).
    rewrite seq_nth by exact Hi. reflexivity. }
  rewrite (map_nth_error (fun j => readU16BE (skipn L body) (2 * j)) i
             (seq 0 k) Hseq).
  rewrite readU16BE_skipn, (readU16BE_value (L + 2 * i) Hb).
  unfold byteAt. f_equal. lia.
Qed.

(** ** The decode operation *)

Section DecodeProperties.

Variables bs58_encode xrpb58_encode : list Z -> option jsstring.
Variable bech32_toWords : list Z -> option (list Z).
Variable bech32_encode : jsstring -> list Z -> option jsstring.

Local Abbreviation decode :=
  (decodeGasZipCalldata bs58_encode xrpb58_encode bech32_toWords bech32_encode).

(** The bech32 form of an Initia address, [None] when either step throws. *)
Local Abbreviation initiaOf ab :=
  (match bech32_toWords ab with
   | Some words => bech32_encode (str "init") words
   | None => None
   end).

Lemma decode_split_throw s p body e :
  payload s p body ->
  splitAddressAndChains p body = Throw e ->
  decode s = Throw e.
Proof.
  intros [Ha Hb] Hs. unfold decodeGasZipCalldata.
  rewrite Ha, Hb. cbn [bind]. rewrite Hs. reflexivity.
Qed.

(** What the dispatcher returns once the splitter has answered. *)
Lemma decode_split_ok s p body sp :
  payload s p body ->
  splitAddressAndChains p body = Ok sp ->
  decode s =
    let ab := Split.addressBytes sp in
    let mk := decoded s p (Split.chainIds sp) in
    if (p =? 0x01)%Z then Ok (mk SELF emptyDestination)
    else if (p =? 0x02)%Z then
      if negb (length ab =? 20) then Throw EvmAddressLength
      else Ok (mk EVM (mkDestination (Some (bytesToHex ab)) None None None
                         None None None None))
    else if (p =? 0x04)%Z then
      if negb (length ab =? 32) then Throw MoveAddressLength
      else Ok (mk MOVE (mkDestination None (Some (bytesToHex ab)) None None
                          None None None None))
    else if (p =? 0x06)%Z then
      if negb (length ab =? 20) then Throw InitiaAddressLength
      else Ok (mk INITIA (mkDestination None None None None None None
                            (initiaOf ab) (Some (bytesToHex ab))))
    else if (p =? 0x03)%Z then
      Ok (mk BASE58 (mkDestination None None
                       (Some (orEmpty (bs58_encode ab)))
                       (Some (bytesToHex ab)) (Some (length ab =? 32))
                       None None None))
    else if (p =? 0x05)%Z then
      Ok (mk XRP (mkDestination None None None None None
                    (Some (orEmpty (xrpb58_encode ab))) None None))
    else Ok (mk UNKNOWN emptyDestination).
Proof.
  intros [Ha Hb] Hs. unfold decodeGasZipCalldata.
  rewrite Ha, Hb. cbn [bind]. rewrite Hs. cbn [bind].
  rewrite (split_leftovers _ _ Hs). reflexivity.
Qed.

(** After [assertHex] no error of kind [InvalidHexEncoding] is left. *)
Lemma decode_later_errors s e :
  assertHex s = Ok tt ->
  decode s = Throw e ->
  errorKind e <> InvalidHexEncoding.
Proof.
  intros Ha. destruct (assertHex_hexToBytes s Ha) as [data Hb].
  destruct data as [|p body].
  - unfold decodeGasZipCalldata. rewrite Ha, Hb. cbn [bind].
    intros H. inversion H. discriminate.
  - destruct (splitAddressAndChains p body) as [sp|e'] eqn:Hs.
    + rewrite (decode_split_ok (conj Ha Hb) Hs). cbv zeta.
      repeat match goal with
             | |- context [if ?c then _ else _] => destruct c
             end; intros H; inversion H; discriminate.
    + rewrite (decode_split_throw (conj Ha Hb) Hs).
      intros H. inversion H. subst e'.
      destruct (split_errors _ _ Hs) as [-> | ->]; discriminate.
Qed.

(** *** Fixed-length families *)

(** The three outcomes of a fixed-length family, by the length of the body. *)
Lemma decode_fixed s p L body :
  payload s p body ->
  fixedFamily p L ->
  decode s =
    if length body <? L then Throw CalldataTooShort
    else if negb (Nat.even (length body - L)) then Throw ChainTailNotEven
    else
      Ok (decoded s p (readChainIds (skipn L body))
            (if (p =? 0x01)%Z then SELF
             else if (p =? 0x02)%Z then EVM
             else if (p =? 0x04)%Z then MOVE else INITIA)
            (let hex := Some (bytesToHex (firstn L body)) in
             if (p =? 0x01)%Z then emptyDestination
             else if (p =? 0x02)%Z then
               mkDestination hex None None None None None None None
             else if (p =? 0x04)%Z then
               mkDestination None hex None None None None None None
             else
               mkDestination None None None None None None
                 (initiaOf (firstn L body)) hex)).
Proof.
  intros Hp Hf.
  pose proof (@split_fixed p L body (fixedFamily_fixedLen Hf)) as Hs.
  destruct (Nat.ltb_spec (length body) L) as [Hlt|Hge].
  - apply (decode_split_throw Hp Hs).
  - destruct (negb (Nat.even (length body - L))).
    + apply (decode_split_throw Hp Hs).
    + rewrite (decode_split_ok Hp Hs). cbv zeta.
      cbn [Split.addressBytes Split.chainIds].
      rewrite (firstn_length_le _ Hge).
      destruct Hf as [E|[E|[E|[E|[]]]]]; inversion E; subst p L; reflexivity.
Qed.

(** C1: for a prefix in 0x01, 0x02, 0x04, 0x06 with fixed address length
    [L] in 0, 20, 32, 20 and a body of length [L + 2k], the decode
    succeeds, the address bytes are [body[0:L]], and the chain-id list has
    [k] entries; entry [i], in the order of the tail, is the big-endian
    uint16 at offset [2i] of the tail: 256 times the byte [body[L + 2i]]
    plus the byte [body[L + 2i + 1]]. *)
Theorem fixed_length_decodes s p L body k :
  payload s p body ->
  fixedFamily p L ->
  length body = L + 2 * k ->
  splitAddressAndChains p body
    = Ok (Split.mk (firstn L body) (tailIds L k body) None) /\
  (forall i, i < k ->
     nth_error (tailIds L k body) i
     = Some (256 * nth (L + 2 * i) body 0 + nth (L + 2 * i + 1) body 0)%Z) /\
  exists d,
    decode s = Ok d /\
    map id (chainIds d) = tailIds L k body /\
    length (chainIds d) = k /\
    (forall i, i < k ->
       nth_error (map id (chainIds d)) i
       = Some (256 * nth (L + 2 * i) body 0 + nth (L + 2 * i + 1) body 0)%Z) /\
    (L <> 0 -> addressHex d = Some (bytesToHex (firstn L body))).
Proof.
  intros Hp Hf Hlen.
  assert (Hlt : (length body <? L) = false) by (apply Nat.ltb_ge; lia).
  assert (Hev : Nat.even (length body - L) = true).
  { apply Nat.even_spec. exists k. lia. }
  assert (Hids : readChainIds (skipn L body) = tailIds L k body).
  { apply readChainIds_even. rewrite length_skipn. lia. }
  assert (Hb : Forall isByte body).
  { pose proof (@hexToBytes_isByte s (p :: body) (proj2 Hp)) as H.
    inversion H. assumption. }
  assert (Hval : forall i, i < k ->
            nth_error (tailIds L k body) i
            = Some (256 * nth (L + 2 * i) body 0 + nth (L + 2 * i + 1) body 0)%Z).
  { intros i Hi. apply tailIds_value; assumption. }
  split; [|split; [exact Hval|]].
  - rewrite (@split_fixed p L body (fixedFamily_fixedLen Hf)), Hlt, Hev, Hids.
    reflexivity.
  - rewrite (decode_fixed Hp Hf), Hlt, Hev, Hids. cbn [negb].
    eexists. split; [reflexivity|].
    cbn [chainIds decoded]. rewrite map_id_annotate, length_map.
    split; [reflexivity|]. split; [|split; [exact Hval|]].
    + unfold tailIds. rewrite length_map, length_seq. reflexivity.
    + destruct Hf as [E|[E|[E|[E|[]]]]]; inversion E; subst p L;
        intros HL; try reflexivity. contradiction.
Qed.

(** C6: for a fixed-length prefix with address length [L], the decode
    fails with AddressLengthMismatch if and only if the body is shorter
    than [L]; when it is not shorter, it fails with MalformedChainTail if
    and only if [body.length - L] is odd.  So 0x02 followed by nineteen
    bytes fails with AddressLengthMismatch. *)
Theorem fixed_length_errors s p L body :
  payload s p body ->
  fixedFamily p L ->
  (failsWith (decode s) AddressLengthMismatch <-> length body < L) /\
  (L <= length body ->
   (failsWith (decode s) MalformedChainTail <-> Nat.Odd (length body - L))) /\
  (p = 0x02%Z -> length body = 19 -> failsWith (decode s) AddressLengthMismatch).
Proof.
  intros Hp Hf. rewrite (decode_fixed Hp Hf).
  assert (HL : p = 0x02%Z -> L = 20).
  { destruct Hf as [E|[E|[E|[E|[]]]]]; inversion E; subst p L;
      intros; (reflexivity || discriminate). }
  rewrite <- Nat.odd_spec, <- Nat.negb_even.
  destruct (Nat.ltb_spec (length body) L) as [Hlt|Hge].
  - rewrite failsWith_Throw.
    split; [split; [intros _; exact Hlt | reflexivity]|].
    split; [lia | reflexivity].
  - destruct (Nat.even (length body - L)); cbn [negb].
    + split; [split; [intros H; destruct (failsWith_Ok H) | lia]|].
      split; [|intros H1 H2; rewrite (HL H1) in Hge; lia].
      intros _. split; [intros H; destruct (failsWith_Ok H) | discriminate].
    + rewrite !failsWith_Throw.
      split; [split; [discriminate | lia]|].
      split; [|intros H1 H2; rewrite (HL H1) in Hge; lia].
      intros _. split; reflexivity.
Qed.

(** *** Variable-length families *)

(** C2: on the heuristic path (prefix 0x05, and prefix 0x03 when the
    deterministic condition is false) the split is the outcome of the
    specification's algorithm: from [end = body.length] and an empty
    accumulator, while [end - 2 >= 1] the value at [end - 2] is accepted
    exactly when it is a registry key or the accumulator is empty;
    [addressBytes = body[0:end]] and the chain ids are the accumulator
    reversed.  That outcome is the only one the algorithm has. *)
Theorem heuristic_split_refines_spec p body :
  heuristicPath p body ->
  exists addressBytes ids,
    splitAddressAndChains p body = Ok (Split.mk addressBytes ids None) /\
    HeuristicSpec.split body addressBytes ids /\
    (forall addressBytes' ids',
        HeuristicSpec.split body addressBytes' ids' ->
        addressBytes' = addressBytes /\ ids' = ids).
Proof.
  intros Hh. destruct (heuristicPath_scan Hh) as [H1 H2].
  eexists. eexists. split; [apply (split_scan _ _ H1 H2)|].
  split.
  - exists (fst (scanTail body (length body) [])),
           (snd (scanTail body (length body) [])).
    split; [apply scanTail_scan | split; reflexivity].
  - intros ab' ids' [e' [acc' [Hrun [-> ->]]]].
    destruct (scan_functional Hrun (scanTail_scan body (length body) []))
      as [-> ->].
    split; reflexivity.
Qed.

(** C7: for prefix 0x05 and a body of at least 3 bytes, whatever its
    content, at least one byte is left as address: the scan does not
    consume the whole body. *)
Theorem heuristic_keeps_address s body :
  payload s 0x05%Z body ->
  3 <= length body ->
  exists sp,
    splitAddressAndChains 0x05 body = Ok sp /\
    1 <= length (Split.addressBytes sp) /\
    length (Split.addressBytes sp) + 2 * length (Split.chainIds sp)
      = length body /\
    decode s =
      Ok (decoded s 0x05 (Split.chainIds sp) XRP
            (mkDestination None None None None None
               (Some (orEmpty (xrpb58_encode (Split.addressBytes sp))))
               None None)).
Proof.
  intros Hp Hlen.
  assert (Hs := split_scan 0x05 body eq_refl eq_refl).
  eexists. split; [exact Hs|].
  cbn [Split.addressBytes Split.chainIds].
  pose proof (scanTail_consumed body (length body) []) as Hc.
  pose proof (@scanTail_end_pos body (length body) []) as Hpos.
  simpl in Hc. rewrite length_rev, firstn_length_le by lia.
  split; [apply Hpos; lia|]. split; [lia|].
  rewrite (decode_split_ok Hp Hs). reflexivity.
Qed.

(** C9: in a chain-id list produced by the heuristic, every entry but the
    last is a key of the registry; the last one, the first value scanned,
    is the only one that may be unregistered. *)
Theorem heuristic_ids_registered s p body :
  payload s p body ->
  heuristicPath p body ->
  exists sp d,
    splitAddressAndChains p body = Ok sp /\
    Forall known (removelast (Split.chainIds sp)) /\
    decode s = Ok d /\
    map id (chainIds d) = Split.chainIds sp /\
    Forall (fun e => name e <> None) (removelast (chainIds d)).
Proof.
  intros Hp Hh. destruct (heuristicPath_scan Hh) as [H1 H2].
  assert (Hs := split_scan _ _ H1 H2).
  assert (Hk : Forall known
                 (removelast (rev (snd (scanTail body (length body) []))))).
  { rewrite removelast_rev. apply Forall_rev.
    apply scanTail_known. constructor. }
  rewrite (decode_split_ok Hp Hs). cbv zeta.
  destruct Hh as [->|[-> _]];
    (eexists; eexists; split; [exact Hs|]);
    (split; [exact Hk|]); (split; [reflexivity|]);
    cbn [chainIds decoded Split.chainIds];
    (split; [apply map_id_annotate|]);
    rewrite removelast_map; apply Forall_map;
    (eapply Forall_impl; [|exact Hk]); intros v; apply known_annotate.
Qed.

(** C10: for prefix 0x03 or 0x05 and a body shorter than 3 bytes, the bare
    payloads 0x03 and 0x05 included, the decode succeeds with no chain id
    and the whole body as address bytes; the deterministic path of 0x03
    does not apply to such a body. *)
Theorem short_variable_body s p body :
  payload s p body ->
  p = 0x03%Z \/ p = 0x05%Z ->
  length body < 3 ->
  ~ fastPath body /\
  splitAddressAndChains p body = Ok (Split.mk body [] None) /\
  decode s =
    Ok (decoded s p []
          (if (p =? 0x03)%Z then BASE58 else XRP)
          (if (p =? 0x03)%Z then
             mkDestination None None (Some (orEmpty (bs58_encode body)))
               (Some (bytesToHex body)) (Some false) None None None
           else
             mkDestination None None None None None
               (Some (orEmpty (xrpb58_encode body))) None None)).
Proof.
  intros Hp Hpre Hlen.
  assert (Hnf : ~ fastPath body) by (intros [H _]; lia).
  assert (Hh : heuristicPath p body).
  { destruct Hpre as [->| ->]; [right; split; [reflexivity | exact Hnf] | left; reflexivity]. }
  destruct (heuristicPath_scan Hh) as [H1 H2].
  assert (Hs := split_scan _ _ H1 H2).
  rewrite (scanTail_short body []) in Hs by lia.
  cbn [fst snd rev] in Hs. rewrite firstn_all in Hs.
  split; [exact Hnf|]. split; [exact Hs|].
  rewrite (decode_split_ok Hp Hs). cbv zeta. cbn [Split.addressBytes Split.chainIds].
  assert (H32 : (length body =? 32) = false) by (apply Nat.eqb_neq; lia).
  rewrite H32. destruct Hpre as [->| ->]; reflexivity.
Qed.

(** C5: for prefix 0x03 with [body.length >= 32] and [body.length - 32]
    even, the deterministic path is taken: the address is the first 32
    bytes, [solanaLike] is true, and the rest is read as consecutive
    big-endian uint16 chain ids from left to right, the id at place [i]
    being 256 times the byte [body[32 + 2i]] plus the byte after it.  With
    a body of 34 bytes whose last two bytes are a registry id, the result
    has exactly one chain id, that value. *)
Theorem base58_fast_path s body :
  payload s 0x03%Z body ->
  fastPath body ->
  let k := (length body - 32) / 2 in
  let ids := tailIds 32 k body in
  splitAddressAndChains 0x03 body = Ok (Split.mk (firstn 32 body) ids None) /\
  length (firstn 32 body) = 32 /\
  decode s =
    Ok (decoded s 0x03 ids BASE58
          (mkDestination None None
             (Some (orEmpty (bs58_encode (firstn 32 body))))
             (Some (bytesToHex (firstn 32 body))) (Some true)
             None None None)) /\
  (exists d,
      decode s = Ok d /\
      type d = BASE58 /\
      solanaLike (destination d) = Some true /\
      base58Hex (destination d) = Some (bytesToHex (firstn 32 body)) /\
      length (chainIds d) = k /\
      map id (chainIds d) = ids /\
      (forall i, i < k ->
         nth_error (map id (chainIds d)) i
         = Some (256 * nth (32 + 2 * i) body 0
                 + nth (32 + 2 * i + 1) body 0)%Z)) /\
  (length body = 34 ->
   forall v, (256 * nth 32 body 0 + nth 33 body 0)%Z = v -> known v ->
     exists d,
       decode s = Ok d /\
       map id (chainIds d) = [v] /\
       length (chainIds d) = 1 /\
       Forall (fun e => name e <> None) (chainIds d) /\
       length (firstn 32 body) = 32 /\
       solanaLike (destination d) = Some true).
Proof.
  intros Hp Hf k ids. pose proof Hf as [H32 [k' Hk]].
  assert (Hdiv : k = k').
  { unfold k. rewrite Hk, Nat.mul_comm. apply Nat.div_mul. discriminate. }
  assert (Hids : readChainIds (skipn 32 body) = ids).
  { unfold ids, tailIds. rewrite Hdiv. apply readChainIds_even.
    rewrite length_skipn. exact Hk. }
  assert (Hb : Forall isByte body).
  { pose proof (@hexToBytes_isByte s (0x03%Z :: body) (proj2 Hp)) as H.
    inversion H. assumption. }
  assert (Hs := split_fast Hf). rewrite Hids in Hs.
  assert (Hl : length (firstn 32 body) = 32) by (apply firstn_length_le; exact H32).
  assert (Hd : decode s =
    Ok (decoded s 0x03 ids BASE58
          (mkDestination None None
             (Some (orEmpty (bs58_encode (firstn 32 body))))
             (Some (bytesToHex (firstn 32 body))) (Some true)
             None None None))).
  { rewrite (decode_split_ok Hp Hs). cbv zeta.
    cbn [Split.addressBytes Split.chainIds]. rewrite Hl. reflexivity. }
  assert (Hlen : length ids = k).
  { unfold ids, tailIds. rewrite length_map, length_seq. reflexivity. }
  split; [exact Hs|]. split; [exact Hl|]. split; [exact Hd|]. split.
  - eexists. split; [exact Hd|]. cbn [type destination solanaLike base58Hex
                                       chainIds decoded].
    rewrite map_id_annotate, length_map.
    repeat split; [exact Hlen|]. intros i Hi. apply tailIds_value; assumption.
  - intros H34 v Hv Hkn.
    assert (Hk1 : k = 1) by (rewrite Hdiv; lia).
    assert (Hone : ids = [v]).
    { apply singleton_nth_error; [lia|].
      unfold ids. rewrite tailIds_value by (try assumption; lia).
      f_equal. exact Hv. }
    eexists. split; [exact Hd|]. cbn [type destination solanaLike chainIds decoded].
    rewrite map_id_annotate, length_map, Hone.
    repeat split; [|exact Hl].
    apply Forall_cons; [apply known_annotate; exact Hkn | apply Forall_nil].
Qed.

(** *** Unknown prefixes *)

(** C4, amended: for a prefix byte outside 0x01..0x06 the decode does not
    throw; it returns kind UNKNOWN with an empty destination and no
    leftover field.  The body is passed through the variable-length scan,
    whose accepted values are the chain ids of the result. *)
Theorem unknown_prefix_decodes s p body :
  payload s p body ->
  (p < 0x01 \/ 0x06 < p)%Z ->
  decode s =
    Ok {| type := UNKNOWN;
          raw := s;
          prefix := str "0x" ++ padStart0 (toString16 p) 2;
          destination := emptyDestination;
          chainIds :=
            map annotate (rev (snd (scanTail body (length body) [])));
          leftoversHex := None |}.
Proof.
  intros Hp Hu. destruct (unknown_scan body Hu) as [H1 H2].
  rewrite (decode_split_ok Hp (split_scan _ _ H1 H2)). cbv zeta.
  destruct (Z.eqb_spec p 1); [lia|]. destruct (Z.eqb_spec p 2); [lia|].
  destruct (Z.eqb_spec p 4); [lia|]. destruct (Z.eqb_spec p 6); [lia|].
  destruct (Z.eqb_spec p 3); [lia|]. destruct (Z.eqb_spec p 5); [lia|].
  reflexivity.
Qed.

(** *** Hex validation *)

(** What the hex check of the code tests: the decode fails with
    InvalidHexEncoding exactly when the input does not start with 0x or has
    odd length; so it fails whenever the part after the optional 0x prefix
    has odd length. *)
Theorem hex_encoding_errors s :
  (failsWith (decode s) InvalidHexEncoding <->
   startsWith s (str "0x") = false \/ Nat.Odd (length s)) /\
  (Nat.Odd (length (if startsWith s (str "0x") then sliceFrom s 2 else s)) ->
   failsWith (decode s) InvalidHexEncoding).
Proof.
  assert (Hthrow : startsWith s (str "0x") = false \/ Nat.Odd (length s) ->
                   failsWith (decode s) InvalidHexEncoding).
  { intros H. apply assertHex_throw in H.
    unfold decodeGasZipCalldata. rewrite H. cbn [bind].
    apply failsWith_Throw. reflexivity. }
  split; [split; [|exact Hthrow]|].
  - intros [e [He Hk]].
    destruct (assertHex s) as [[]|e'] eqn:Ha.
    + destruct (@decode_later_errors s e Ha He Hk).
    + apply assertHex_throw. rewrite Ha. f_equal.
      unfold assertHex in Ha. destruct (_ || _); [|discriminate].
      inversion Ha. reflexivity.
  - intros Hodd. apply Hthrow.
    destruct (startsWith s (str "0x")) eqn:Hsw; [right | left; reflexivity].
    rewrite (startsWith_0x_length s Hsw).
    destruct Hodd as [m Hm]. exists (S m). lia.
Qed.

(** *** Address encoders *)

(** C8: when the base58, Ripple-alphabet base58 or bech32 encoding of the
    address bytes fails, the decode still returns its result: BASE58 and
    INITIA keep the hex form, the readable string is empty (BASE58, XRP)
    or absent (INITIA), and no error comes out of the encoder. *)
Theorem encoder_failures_absorbed s p body sp :
  payload s p body ->
  splitAddressAndChains p body = Ok sp ->
  (p = 0x03%Z /\ bs58_encode (Split.addressBytes sp) = None) \/
  (p = 0x05%Z /\ xrpb58_encode (Split.addressBytes sp) = None) \/
  (p = 0x06%Z /\ initiaOf (Split.addressBytes sp) = None) ->
  exists d,
    decode s = Ok d /\
    chainIds d = map annotate (Split.chainIds sp) /\
    (p = 0x03%Z ->
     type d = BASE58 /\ base58 (destination d) = Some [] /\
     base58Hex (destination d) = Some (bytesToHex (Split.addressBytes sp))) /\
    (p = 0x05%Z -> type d = XRP /\ xrp (destination d) = Some []) /\
    (p = 0x06%Z ->
     type d = INITIA /\ initia (destination d) = None /\
     initiaHex (destination d) = Some (bytesToHex (Split.addressBytes sp))).
Proof.
  intros Hp Hs Hfail. rewrite (decode_split_ok Hp Hs). cbv zeta.
  destruct Hfail as [[-> He]|[[-> He]|[-> He]]].
  - eexists. split; [reflexivity|]. cbn. rewrite He.
    repeat split; discriminate.
  - eexists. split; [reflexivity|]. cbn. rewrite He.
    repeat split; discriminate.
  - rewrite (@split_fixed_length 0x06 20 body sp eq_refl Hs).
    eexists. split; [reflexivity|]. cbn -[bytesToHex str]. rewrite He.
    repeat split; discriminate.
Qed.

End DecodeProperties.

(** * Instances on the example inputs *)

Lemma fixed_length_decodes_witness :
  payload evmPayload 0x02 evmBody /\
  fixedFamily 0x02 20 /\
  length evmBody = 20 + 2 * 1 /\
  splitAddressAndChains 0x02 evmBody
    = Ok (Split.mk (firstn 20 evmBody) (tailIds 20 1 evmBody) None) /\
  (forall i, i < 1 ->
     nth_error (tailIds 20 1 evmBody) i
     = Some (256 * nth (20 + 2 * i) evmBody 0
             + nth (20 + 2 * i + 1) evmBody 0)%Z) /\
  exists d,
    decodeNoText evmPayload = Ok d /\
    map id (chainIds d) = tailIds 20 1 evmBody /\
    length (chainIds d) = 1 /\
    (forall i, i < 1 ->
       nth_error (map id (chainIds d)) i
       = Some (256 * nth (20 + 2 * i) evmBody 0
               + nth (20 + 2 * i + 1) evmBody 0)%Z) /\
    (20 <> 0 -> addressHex d = Some (bytesToHex (firstn 20 evmBody))).
Proof.
  assert (Hp : payload evmPayload 0x02 evmBody) by (split; reflexivity).
  assert (Hf : fixedFamily 0x02 20) by (right; left; reflexivity).
  assert (Hl : length evmBody = 20 + 2 * 1) by reflexivity.
  split; [exact Hp|]. split; [exact Hf|]. split; [exact Hl|].
  exact (@fixed_length_decodes throwing throwing throwing (fun _ => throwing)
           evmPayload 0x02%Z 20 evmBody 1 Hp Hf Hl).
Defined.

(** The result on the first example, in full. *)
Example evmPayload_decoded :
  decodeNoText evmPayload =
    Ok {| type := EVM;
          raw := evmPayload;
          prefix := str "0x02";
          destination :=
            mkDestination (Some (str "0x1111111111111111111111111111111111111111"))
              None None None None None None None;
          chainIds := [mkEntry 54 (Some (str "Base Mainnet")) (Some 8453%Z)];
          leftoversHex := None |}.
Proof. reflexivity. Qed.

Lemma fixed_length_errors_witness :
  payload shortEvmPayload 0x02 shortEvmBody /\
  fixedFamily 0x02 20 /\
  length shortEvmBody = 19 /\
  failsWith (decodeNoText shortEvmPayload) AddressLengthMismatch.
Proof.
  assert (Hp : payload shortEvmPayload 0x02 shortEvmBody) by (split; reflexivity).
  assert (Hf : fixedFamily 0x02 20) by (right; left; reflexivity).
  split; [exact Hp|]. split; [exact Hf|]. split; [reflexivity|].
  exact (proj2 (proj2 (@fixed_length_errors throwing throwing throwing
                         (fun _ => throwing) shortEvmPayload 0x02%Z 20
                         shortEvmBody Hp Hf))
           eq_refl eq_refl).
Defined.

Lemma heuristic_split_refines_spec_witness :
  heuristicPath 0x05 xrpBody /\
  exists addressBytes ids,
    splitAddressAndChains 0x05 xrpBody = Ok (Split.mk addressBytes ids None) /\
    HeuristicSpec.split xrpBody addressBytes ids /\
    (forall addressBytes' ids',
        HeuristicSpec.split xrpBody addressBytes' ids' ->
        addressBytes' = addressBytes /\ ids' = ids).
Proof.
  assert (Hh : heuristicPath 0x05 xrpBody) by (left; reflexivity).
  split; [exact Hh|].
  exact (@heuristic_split_refines_spec 0x05%Z xrpBody Hh).
Defined.

(** The scan on the XRP example: both trailing values are taken, the
    unregistered one because it is scanned first. *)
Example xrpBody_split :
  splitAddressAndChains 0x05 xrpBody
    = Ok (Split.mk [0xaa; 0xbb; 0xcc; 0xdd]%Z [54; 2457]%Z None).
Proof. reflexivity. Qed.

Lemma heuristic_keeps_address_witness :
  payload xrpPayload 0x05 xrpBody /\
  3 <= length xrpBody /\
  exists sp,
    splitAddressAndChains 0x05 xrpBody = Ok sp /\
    1 <= length (Split.addressBytes sp) /\
    length (Split.addressBytes sp) + 2 * length (Split.chainIds sp)
      = length xrpBody /\
    decodeNoText xrpPayload =
      Ok (decoded xrpPayload 0x05 (Split.chainIds sp) XRP
            (mkDestination None None None None None
               (Some (orEmpty (throwing (Split.addressBytes sp))))
               None None)).
Proof.
  assert (Hp : payload xrpPayload 0x05 xrpBody) by (split; reflexivity).
  assert (Hl : 3 <= length xrpBody) by (simpl; lia).
  split; [exact Hp|]. split; [exact Hl|].
  exact (@heuristic_keeps_address throwing throwing throwing
           (fun _ => throwing) xrpPayload xrpBody Hp Hl).
Defined.

Lemma heuristic_ids_registered_witness :
  payload xrpPayload 0x05 xrpBody /\
  heuristicPath 0x05 xrpBody /\
  exists sp d,
    splitAddressAndChains 0x05 xrpBody = Ok sp /\
    Forall known (removelast (Split.chainIds sp)) /\
    decodeNoText xrpPayload = Ok d /\
    map id (chainIds d) = Split.chainIds sp /\
    Forall (fun e => name e <> None) (removelast (chainIds d)).
Proof.
  assert (Hp : payload xrpPayload 0x05 xrpBody) by (split; reflexivity).
  assert (Hh : heuristicPath 0x05 xrpBody) by (left; reflexivity).
  split; [exact Hp|]. split; [exact Hh|].
  exact (@heuristic_ids_registered throwing throwing throwing
           (fun _ => throwing) xrpPayload 0x05%Z xrpBody Hp Hh).
Defined.

Lemma short_variable_body_witness :
  payload barePayload 0x05 [] /\
  (0x05 = 0x03 \/ 0x05 = 0x05)%Z /\
  @length Z [] < 3 /\
  ~ fastPath [] /\
  splitAddressAndChains 0x05 [] = Ok (Split.mk [] [] None) /\
  decodeNoText barePayload =
    Ok (decoded barePayload 0x05 [] XRP
          (mkDestination None None None None None (Some []) None None)).
Proof.
  assert (Hp : payload barePayload 0x05 []) by (split; reflexivity).
  assert (Hq : (0x05 = 0x03 \/ 0x05 = 0x05)%Z) by (right; reflexivity).
  assert (Hl : @length Z [] < 3) by (simpl; lia).
  split; [exact Hp|]. split; [exact Hq|]. split; [exact Hl|].
  exact (@short_variable_body throwing throwing throwing (fun _ => throwing)
           barePayload 0x05%Z [] Hp Hq Hl).
Defined.

(** The bare prefix 0x03 as well. *)
Example bare_base58_decoded :
  decodeNoText (str "0x03") =
    Ok {| type := BASE58;
          raw := str "0x03";
          prefix := str "0x03";
          destination :=
            mkDestination None None (Some []) (Some (str "0x")) (Some false)
              None None None;
          chainIds := [];
          leftoversHex := None |}.
Proof. reflexivity. Qed.

Lemma base58_fast_path_witness :
  payload solanaPayload 0x03 solanaBody /\
  fastPath solanaBody /\
  length solanaBody = 34 /\
  (256 * nth 32 solanaBody 0 + nth 33 solanaBody 0)%Z = 54%Z /\
  known 54%Z /\
  splitAddressAndChains 0x03 solanaBody
    = Ok (Split.mk (firstn 32 solanaBody) [54%Z] None) /\
  (exists d,
      decodeNoText solanaPayload = Ok d /\
      type d = BASE58 /\
      solanaLike (destination d) = Some true /\
      base58Hex (destination d) = Some (bytesToHex (firstn 32 solanaBody)) /\
      length (chainIds d) = 1 /\
      map id (chainIds d) = [54%Z] /\
      (forall i, i < 1 ->
         nth_error (map id (chainIds d)) i
         = Some (256 * nth (32 + 2 * i) solanaBody 0
                 + nth (32 + 2 * i + 1) solanaBody 0)%Z)) /\
  (exists d,
      decodeNoText solanaPayload = Ok d /\
      map id (chainIds d) = [54%Z] /\
      length (chainIds d) = 1 /\
      Forall (fun e => name e <> None) (chainIds d) /\
      length (firstn 32 solanaBody) = 32 /\
      solanaLike (destination d) = Some true).
Proof.
  assert (Hp : payload solanaPayload 0x03 solanaBody) by (split; reflexivity).
  assert (Hf : fastPath solanaBody).
  { split; [simpl; lia | exists 1; reflexivity]. }
  assert (Hl : length solanaBody = 34) by reflexivity.
  assert (Hv : (256 * nth 32 solanaBody 0 + nth 33 solanaBody 0)%Z = 54%Z)
    by reflexivity.
  assert (Hk : known 54%Z) by reflexivity.
  split; [exact Hp|]. split; [exact Hf|]. split; [exact Hl|].
  split; [exact Hv|]. split; [exact Hk|].
  pose proof (@base58_fast_path throwing throwing throwing (fun _ => throwing)
                solanaPayload solanaBody Hp Hf) as H.
  cbv zeta in H. destruct H as [H1 [_ [_ [H4 H5]]]].
  split; [exact H1|]. split; [exact H4|].
  exact (H5 Hl 54%Z Hv Hk).
Defined.

Lemma unknown_prefix_decodes_witness :
  payload unknownPayload 0x07 unknownBody /\
  (0x07 < 0x01 \/ 0x06 < 0x07)%Z /\
  decodeNoText unknownPayload =
    Ok {| type := UNKNOWN;
          raw := unknownPayload;
          prefix := str "0x07";
          destination := emptyDestination;
          chainIds := [mkEntry 54 (Some (str "Base Mainnet")) (Some 8453%Z)];
          leftoversHex := None |}.
Proof.
  assert (Hp : payload unknownPayload 0x07 unknownBody) by (split; reflexivity).
  assert (Hu : (0x07 < 0x01 \/ 0x06 < 0x07)%Z) by (right; reflexivity).
  split; [exact Hp|]. split; [exact Hu|].
  exact (@unknown_prefix_decodes throwing throwing throwing (fun _ => throwing)
           unknownPayload 0x07%Z unknownBody Hp Hu).
Defined.

(** C4 as stated fails: with prefix 0x07 the five bytes of the body are not
    kept in the leftover field, which is absent; the last two of them come
    out as a chain id. *)
Lemma unknown_prefix_leftover_counterexample :
  hexToBytes unknownPayload = Ok (0x07%Z :: unknownBody) /\
  exists d,
    decodeNoText unknownPayload = Ok d /\
    type d = UNKNOWN /\
    map id (chainIds d) = [54%Z] /\
    leftoversHex d = None /\
    leftoversHex d <> Some (bytesToHex unknownBody).
Proof.
  split; [reflexivity|].
  eexists. split; [reflexivity|].
  repeat split. discriminate.
Qed.

Lemma hex_encoding_errors_witness :
  Nat.Odd (length (if startsWith oddPayload (str "0x")
                   then sliceFrom oddPayload 2 else oddPayload)) /\
  failsWith (decodeNoText oddPayload) InvalidHexEncoding.
Proof.
  assert (Ho : Nat.Odd (length (if startsWith oddPayload (str "0x")
                                then sliceFrom oddPayload 2 else oddPayload))).
  { exists 1. reflexivity. }
  split; [exact Ho|].
  exact (proj2 (@hex_encoding_errors throwing throwing throwing
                  (fun _ => throwing) oddPayload) Ho).
Defined.

(** C3: the decode is to fail with InvalidHexEncoding on an input that is
    not 0x-prefixed even-length hex, so on one with a character outside
    [0-9a-fA-F] after the prefix.  The code does not: on 0xzz, which
    [assertHex] lets through, the pair zz is read by [parseInt] as NaN and
    stored as byte 0, and the decode returns an UNKNOWN result with prefix
    0x00 instead of the error. *)
Lemma non_hex_accepted_counterexample :
  forallb isHexChar (sliceFrom nonHexPayload 2) = false /\
  ~ validHex nonHexPayload /\
  decodeNoText nonHexPayload =
    Ok {| type := UNKNOWN;
          raw := nonHexPayload;
          prefix := str "0x00";
          destination := emptyDestination;
          chainIds := [];
          leftoversHex := None |} /\
  ~ failsWith (decodeNoText nonHexPayload) InvalidHexEncoding.
Proof.
  split; [reflexivity|]. split.
  - intros [_ [_ [_ H]]]. discriminate.
  - split; [reflexivity|]. apply failsWith_Ok.
Qed.

Lemma encoder_failures_absorbed_witness :
  payload initiaPayload 0x06 initiaBody /\
  splitAddressAndChains 0x06 initiaBody = Ok initiaSplit /\
  (@throwing (list Z) (list Z)) (Split.addressBytes initiaSplit) = None /\
  exists d,
    decodeNoText initiaPayload = Ok d /\
    chainIds d = map annotate (Split.chainIds initiaSplit) /\
    type d = INITIA /\
    initia (destination d) = None /\
    initiaHex (destination d)
      = Some (bytesToHex (Split.addressBytes initiaSplit)).
Proof.
  assert (Hp : payload initiaPayload 0x06 initiaBody) by (split; reflexivity).
  assert (Hs : splitAddressAndChains 0x06 initiaBody = Ok initiaSplit)
    by reflexivity.
  split; [exact Hp|]. split; [exact Hs|]. split; [reflexivity|].
  destruct (@encoder_failures_absorbed throwing throwing throwing
              (fun _ => throwing) initiaPayload 0x06%Z initiaBody initiaSplit
              Hp Hs (or_intror (or_intror (conj eq_refl eq_refl))))
    as [d [Hd [Hc [_ [_ H6]]]]].
  exists d. split; [exact Hd|]. split; [exact Hc|]. exact (H6 eq_refl).
Defined.

(** Two more inputs: a self deposit with two chain ids, and no byte at all. *)
Example self_deposit_decoded :
  decodeNoText (str "0x0100370038") =
    Ok {| type := SELF;
          raw := str "0x0100370038";
          prefix := str "0x01";
          destination := emptyDestination;
          chainIds := [mkEntry 55 (Some (str "OP Mainnet")) (Some 10%Z);
                       mkEntry 56 (Some (str "Zora")) (Some 7777777%Z)];
          leftoversHex := None |}.
Proof. reflexivity. Qed.

Example empty_calldata_rejected :
  decodeNoText (str "0x") = Throw EmptyCalldataError.
Proof. reflexivity. Qed.

(** * Further properties of the decoder *)

(** ** Hex codec *)

Lemma byte_hex_table :
  forallb
    (fun n =>
       let b := Z.of_nat n in
       let h := padStart0 (toString16 b) 2 in
       (if list_eq_dec N.eq_dec h [hexDigit (b / 16); hexDigit (b mod 16)]
        then true else false)
       && (ToUint8 (parseInt16 h) =? b)%Z
       && forallb isLowerHexChar h)
    (seq 0 256) = true.
Proof. vm_compute. reflexivity. Qed.

(** The two characters written for a byte, and what reading them gives. *)
Lemma byte_hex (b : Z) :
  isByte b ->
  padStart0 (toString16 b) 2 = [hexDigit (b / 16); hexDigit (b mod 16)] /\
  ToUint8 (parseInt16 (padStart0 (toString16 b) 2)) = b /\
  forallb isLowerHexChar (padStart0 (toString16 b) 2) = true.
Proof.
  intros [H0 H1].
  pose proof (proj1 (forallb_forall _ _) byte_hex_table (Z.to_nat b)) as H.
  assert (Hin : In (Z.to_nat b) (seq 0 256)) by (apply in_seq; lia).
  specialize (H Hin). cbv beta zeta in H.
  rewrite Z2Nat.id in H by exact H0.
  apply andb_prop in H. destruct H as [H Hc].
  apply andb_prop in H. destruct H as [Ha Hb].
  destruct (list_eq_dec _ _ _) as [E|]; [|discriminate].
  split; [exact E|]. split; [apply Z.eqb_eq; exact Hb | exact Hc].
Qed.

Lemma hexPairs_length (bytes : list Z) :
  Forall isByte bytes -> length (hexPairs bytes) = 2 * length bytes.
Proof.
  unfold hexPairs. induction 1 as [|b bs Hb _ IH]; [reflexivity|].
  simpl. rewrite length_app, IH, (proj1 (byte_hex Hb)). simpl. lia.
Qed.

Lemma slice_pairs {A} (a b : A) (rest : list A) (i : nat) :
  slice (a :: b :: rest) (S i * 2) (S i * 2 + 2) = slice rest (i * 2) (i * 2 + 2).
Proof. reflexivity. Qed.

Lemma hexPairs_read (bytes : list Z) :
  Forall isByte bytes ->
  map (fun i => ToUint8 (parseInt16 (slice (hexPairs bytes) (i * 2) (i * 2 + 2))))
      (seq 0 (length bytes)) = bytes.
Proof.
  induction 1 as [|b bs Hb Hbs IH]; [reflexivity|].
  destruct (byte_hex Hb) as [Hp [Hv _]].
  change (hexPairs (b :: bs)) with (padStart0 (toString16 b) 2 ++ hexPairs bs).
  cbn [length seq map].
  rewrite <- seq_shift, map_map.
  f_equal.
  - rewrite Hp in *. cbn [app]. unfold slice. cbn [Nat.mul Nat.add Nat.sub skipn firstn].
    exact Hv.
  - rewrite Hp. cbn [app]. rewrite <- IH at 2. apply map_ext. intros i.
    rewrite slice_pairs. reflexivity.
Qed.

Lemma hexPairs_lower (bytes : list Z) :
  Forall isByte bytes -> forallb isLowerHexChar (hexPairs bytes) = true.
Proof.
  unfold hexPairs. induction 1 as [|b bs Hb _ IH]; [reflexivity|].
  simpl. rewrite forallb_app, IH, (proj2 (proj2 (byte_hex Hb))). reflexivity.
Qed.

Lemma bytesToHex_pairs (bytes : list Z) :
  bytesToHex bytes = 48%N :: 120%N :: hexPairs bytes.
Proof. reflexivity. Qed.

Lemma startsWith_0x_cons (h : jsstring) :
  startsWith (48%N :: 120%N :: h) (str "0x") = true.
Proof.
  unfold startsWith. cbn [str list_ascii_of_string map length firstn].
  destruct (list_eq_dec _ _ _) as [_|n]; [reflexivity|].
  exfalso. apply n. reflexivity.
Qed.

Lemma double_even (n : nat) : Nat.even (2 * n) = true.
Proof. apply Nat.even_spec. exists n. reflexivity. Qed.

Lemma double_half (n : nat) : 2 * n / 2 = n.
Proof. rewrite Nat.mul_comm. apply Nat.div_mul. discriminate. Qed.

Lemma assertHex_bytesToHex (bytes : list Z) :
  Forall isByte bytes -> assertHex (bytesToHex bytes) = Ok tt.
Proof.
  intros H. rewrite bytesToHex_pairs. unfold assertHex.
  rewrite startsWith_0x_cons, even_mod2.
  cbn [length]. rewrite (hexPairs_length H).
  change (S (S (2 * length bytes))) with (2 + 2 * length bytes).
  replace (2 + 2 * length bytes) with (2 * (1 + length bytes)) by lia.
  rewrite double_even. reflexivity.
Qed.

Lemma bytesToHex_shape (bytes : list Z) :
  Forall isByte bytes ->
  startsWith (bytesToHex bytes) (str "0x") = true /\
  length (bytesToHex bytes) = 2 + 2 * length bytes.
Proof.
  intros H. rewrite bytesToHex_pairs. split; [apply startsWith_0x_cons|].
  cbn [length]. rewrite (hexPairs_length H). reflexivity.
Qed.

(** The hex form of in-range bytes is a payload holding those bytes. *)
Lemma bytesToHex_payload (p : Z) (body : list Z) :
  Forall isByte (p :: body) -> payload (bytesToHex (p :: body)) p body.
Proof.
  intros H. split; [apply assertHex_bytesToHex; exact H|].
  rewrite bytesToHex_pairs. unfold hexToBytes.
  rewrite startsWith_0x_cons.
  change (sliceFrom (48%N :: 120%N :: hexPairs (p :: body)) 2)
    with (hexPairs (p :: body)).
  rewrite even_mod2, (hexPairs_length H), double_even, double_half.
  cbn [negb]. rewrite (hexPairs_read H). reflexivity.
Qed.

(** X1: reading back what [bytesToHex] wrote gives the bytes again. *)
Theorem hex_round_trip (bytes : list Z) :
  Forall isByte bytes ->
  hexToBytes (bytesToHex bytes) = Ok bytes.
Proof.
  intros H. rewrite bytesToHex_pairs. unfold hexToBytes.
  rewrite startsWith_0x_cons.
  change (sliceFrom (48%N :: 120%N :: hexPairs bytes) 2) with (hexPairs bytes).
  rewrite even_mod2, (hexPairs_length H), double_even, double_half.
  cbn [negb]. rewrite (hexPairs_read H). reflexivity.
Qed.

(** X2: the output of [bytesToHex] is 0x followed by two lowercase hex
    digits for each byte, so it passes [assertHex]; for a non-empty array
    it meets the input contract, and the empty array gives 0x, which the
    contract excludes. *)
Theorem bytesToHex_well_formed (bytes : list Z) :
  Forall isByte bytes ->
  startsWith (bytesToHex bytes) (str "0x") = true /\
  length (bytesToHex bytes) = 2 + 2 * length bytes /\
  forallb isLowerHexChar (sliceFrom (bytesToHex bytes) 2) = true /\
  assertHex (bytesToHex bytes) = Ok tt /\
  (bytes <> [] <-> validHex (bytesToHex bytes)) /\
  (bytes = [] -> bytesToHex bytes = str "0x").
Proof.
  intros H.
  assert (Hs : startsWith (bytesToHex bytes) (str "0x") = true)
    by (rewrite bytesToHex_pairs; apply startsWith_0x_cons).
  assert (Hl : length (bytesToHex bytes) = 2 + 2 * length bytes).
  { rewrite bytesToHex_pairs. cbn [length]. rewrite (hexPairs_length H). reflexivity. }
  assert (Hc : forallb isLowerHexChar (sliceFrom (bytesToHex bytes) 2) = true)
    by (apply (hexPairs_lower H)).
  split; [exact Hs|]. split; [exact Hl|]. split; [exact Hc|].
  split; [apply (assertHex_bytesToHex H)|].
  split; [|intros ->; reflexivity].
  split.
  - intros Hne. split; [exact Hs|]. split; [|split].
    + rewrite Hl. exists (1 + length bytes). lia.
    + rewrite Hl. destruct bytes; [congruence | cbn [length]; lia].
    + rewrite forallb_forall in *. intros c Hin. specialize (Hc c Hin).
      unfold isLowerHexChar in Hc. unfold isHexChar, hexDigitValue.
      destruct ((48 <=? c) && (c <=? 57))%N; [reflexivity|].
      destruct ((97 <=? c) && (c <=? 102))%N; [reflexivity | discriminate].
  - intros [_ [_ [Hlong _]]] ->. cbn in Hlong. lia.
Qed.

(** X3: [hexToBytes] throws exactly when the part after the optional 0x
    has odd length; otherwise it returns one byte for each two characters,
    every one of them in 0..255, whatever the characters are. *)
Theorem hexToBytes_bytes (hex : jsstring) :
  let h := if startsWith hex (str "0x") then sliceFrom hex 2 else hex in
  (Nat.Odd (length h) -> hexToBytes hex = Throw InvalidHexLength) /\
  (Nat.Even (length h) ->
   exists data,
     hexToBytes hex = Ok data /\
     2 * length data = length h /\
     Forall isByte data).
Proof.
  intros h. unfold hexToBytes. fold h. rewrite even_mod2. split.
  - intros Ho. apply Nat.odd_spec in Ho. rewrite <- Nat.negb_even in Ho.
    destruct (Nat.even (length h)); [discriminate | reflexivity].
  - intros He. pose proof He as [k Hk]. apply Nat.even_spec in He. rewrite He.
    eexists. split; [reflexivity|]. split.
    + rewrite length_map, length_seq, Hk, double_half. reflexivity.
    + apply Forall_map. apply Forall_forall. intros i _.
      unfold ToUint8, isByte. destruct (parseInt16 _); [|lia].
      apply Z.mod_pos_bound. lia.
Qed.

(** ** Reading chain ids *)

(** X4: on bytes in 0..255, [readU16BE] is 256 times the byte at [offset]
    plus the byte after it, a value in 0..65535; a byte beyond the end of
    the array counts as 0. *)
Theorem readU16BE_big_endian (bytes : list Z) (offset : nat) :
  Forall isByte bytes ->
  readU16BE bytes offset
    = (nth offset bytes 0 * 256 + nth (offset + 1) bytes 0)%Z /\
  (0 <= readU16BE bytes offset < 65536)%Z /\
  (length bytes <= offset -> readU16BE bytes offset = 0%Z).
Proof.
  intros H. split; [apply (readU16BE_value offset H)|].
  split; [apply (readU16BE_range offset H)|].
  intros Hle. unfold readU16BE, byteAt.
  rewrite !nth_overflow by lia. reflexivity.
Qed.

(** ** The splitter on every path *)

Lemma readChainIds_length (tail : list Z) (k : nat) :
  length tail = 2 * k -> length (readChainIds tail) = k.
Proof.
  intros H. rewrite (@readChainIds_even tail k H), length_map, length_seq. reflexivity.
Qed.

Lemma scanPath_scan (p : Z) (body : list Z) :
  scanPath p body ->
  (p =? 0x03)%Z && (32 <=? length body) && ((length body - 32) mod 2 =? 0) = false.
Proof.
  intros [_ Hn]. rewrite even_mod2.
  destruct (Z.eqb_spec p 3) as [Hp|]; [|reflexivity].
  destruct (Nat.leb_spec 32 (length body)) as [H32|]; [|reflexivity].
  destruct (Nat.even (length body - 32)) eqn:He; [|reflexivity].
  exfalso. apply Hn. split; [exact Hp|]. split; [exact H32|].
  apply Nat.even_spec. exact He.
Qed.

Lemma scanPath_split (p : Z) (body : list Z) :
  scanPath p body ->
  splitAddressAndChains p body =
    Ok (Split.mk (firstn (fst (scanTail body (length body) [])) body)
                 (rev (snd (scanTail body (length body) [])))
                 None).
Proof.
  intros H. apply split_scan; [exact (proj1 H) | exact (scanPath_scan H)].
Qed.

(** The values accepted by the scan are the ones that lie between the
    cursor and the end of the body, in the order of the body. *)
Lemma scanTail_order (body : list Z) (e : nat) (acc : list Z) :
  rev acc = map (fun j => readU16BE body (e + j * 2)) (seq 0 (length acc)) ->
  rev (snd (scanTail body e acc))
    = map (fun j => readU16BE body (fst (scanTail body e acc) + j * 2))
          (seq 0 (length (snd (scanTail body e acc)))).
Proof.
  intros H.
  apply (scanTail_invariant (body := body)
           (fun e' acc' =>
              rev acc' = map (fun j => readU16BE body (e' + j * 2))
                             (seq 0 (length acc')))); [|exact H].
  intros e' acc' IH [Hge _].
  rewrite rev_app_distr, length_app, Nat.add_comm. cbn [rev app length Nat.add seq map].
  rewrite Nat.add_0_r. f_equal.
  rewrite IH, <- seq_shift, map_map. apply map_ext. intros j.
  f_equal. lia.
Qed.

Lemma scan_result (body : list Z) :
  let e := fst (scanTail body (length body) []) in
  let acc := snd (scanTail body (length body) []) in
  e + 2 * length acc = length body /\
  length (firstn e body) = e /\
  rev acc = readChainIds (skipn e body).
Proof.
  intros e acc.
  pose proof (scanTail_consumed body (length body) []) as Hc.
  fold e acc in Hc. cbn [length] in Hc.
  assert (He : e + 2 * length acc = length body) by lia.
  split; [exact He|]. split; [apply firstn_length_le; lia|].
  rewrite (@readChainIds_even (skipn e body) (length acc))
    by (rewrite length_skipn; lia).
  unfold e, acc. rewrite (@scanTail_order body (length body) []) by reflexivity.
  apply map_ext. intros j. rewrite readU16BE_skipn. f_equal. lia.
Qed.

Lemma split_partition (p : Z) (body : list Z) (sp : Split.t) :
  splitAddressAndChains p body = Ok sp ->
  let a := length (Split.addressBytes sp) in
  Split.addressBytes sp = firstn a body /\
  Split.chainIds sp = readChainIds (skipn a body) /\
  a + 2 * length (Split.chainIds sp) = length body.
Proof.
  unfold splitAddressAndChains.
  assert (Hfix : forall L, L <= length body ->
            Nat.even (length body - L) = true ->
            let sp' := Split.mk (firstn L body) (readChainIds (skipn L body)) None in
            let a := length (Split.addressBytes sp') in
            Split.addressBytes sp' = firstn a body /\
            Split.chainIds sp' = readChainIds (skipn a body) /\
            a + 2 * length (Split.chainIds sp') = length body).
  { intros L HL He. cbn [Split.addressBytes Split.chainIds].
    rewrite (firstn_length_le _ HL).
    apply Nat.even_spec in He. destruct He as [k Hk].
    rewrite (@readChainIds_length (skipn L body) k) by (rewrite length_skipn; exact Hk).
    repeat split. lia. }
  destruct (fixedLen p) as [fl|].
  - destruct (Nat.ltb_spec (length body) fl) as [|Hge]; [discriminate|].
    unfold sliceFrom. rewrite slice_0, length_skipn, even_mod2.
    destruct (Nat.even (length body - fl)) eqn:He; [|discriminate].
    intros E. inversion E. apply (Hfix fl Hge He).
  - rewrite even_mod2.
    destruct ((p =? 3)%Z && (32 <=? length body) && Nat.even (length body - 32)) eqn:Hc.
    + apply andb_prop in Hc. destruct Hc as [Hc He].
      apply andb_prop in Hc. destruct Hc as [_ H32]. apply Nat.leb_le in H32.
      unfold sliceFrom. rewrite slice_0.
      intros E. inversion E. apply (Hfix 32 H32 He).
    + destruct (scan_result body) as [Hsum [Hlen Hids]].
      destruct (scanTail body (length body) []) as [e acc].
      cbn [fst snd] in *. rewrite slice_0.
      intros E. inversion E. cbn [Split.addressBytes Split.chainIds].
      rewrite Hlen, length_rev. repeat split; [exact Hids | exact Hsum].
Qed.

(** X5: whenever the splitter succeeds, on any path, the body is the
    address bytes followed by the bytes of the chain ids: the chain ids are
    the consecutive big-endian uint16 values of what follows the address, in
    the order of the body, and no byte is left over. *)
Theorem split_partitions_body (p : Z) (body : list Z) (sp : Split.t) :
  splitAddressAndChains p body = Ok sp ->
  exists rest,
    body = Split.addressBytes sp ++ rest /\
    Split.chainIds sp = readChainIds rest /\
    length rest = 2 * length (Split.chainIds sp).
Proof.
  intros Hs. destruct (@split_partition p body sp Hs) as [Hab [Hids Hlen]].
  exists (skipn (length (Split.addressBytes sp)) body).
  split; [|split; [exact Hids|]].
  - rewrite Hab at 1. symmetry. apply firstn_skipn.
  - rewrite length_skipn. lia.
Qed.

Lemma hd_app_nonempty {A} (d : A) (l l' : list A) :
  l <> [] -> hd d (l ++ l') = hd d l.
Proof. destruct l; [congruence | reflexivity]. Qed.

Lemma last_rev_hd {A} (d : A) (l : list A) : last (rev l) d = hd d l.
Proof.
  destruct l as [|a l]; [reflexivity|]. simpl. apply last_last.
Qed.

(** X6: on the scan path a body of at least 3 bytes always gives at least
    one chain id: the last two bytes of the body are taken as the last chain
    id whether they are a registry id or not. *)
Theorem scan_takes_last_two_bytes (p : Z) (body : list Z) :
  scanPath p body ->
  3 <= length body ->
  exists sp,
    splitAddressAndChains p body = Ok sp /\
    Split.chainIds sp <> [] /\
    last (Split.chainIds sp) 0%Z = readU16BE body (length body - 2).
Proof.
  intros Hs Hlen. eexists. split; [apply (scanPath_split Hs)|].
  cbn [Split.chainIds].
  assert (Ha : accepts body (length body) []) by (split; [lia | right; reflexivity]).
  rewrite (scanTail_accept Ha). cbn [app].
  set (v := readU16BE body (length body - 2)).
  destruct (@scanTail_invariant body (fun _ acc => acc <> [] /\ hd 0%Z acc = v))
    with (e := length body - 2) (acc := [v]) as [[Hne Hhd] _].
  - intros e acc [Hne Hhd] _. split.
    + intros E. apply app_eq_nil in E. destruct E as [_ E]. discriminate.
    + rewrite (hd_app_nonempty _ _ Hne). exact Hhd.
  - split; [discriminate | reflexivity].
  - split.
    + intros E. apply Hne. apply (f_equal (@rev Z)) in E.
      rewrite rev_involutive in E. exact E.
    + rewrite last_rev_hd. exact Hhd.
Qed.

Lemma byteAt_firstn (l : list Z) (n i : nat) :
  i < n -> byteAt (firstn n l) i = byteAt l i.
Proof.
  unfold byteAt. revert l i. induction n as [|n IH]; intros l i Hi; [lia|].
  destruct l as [|a l]; [destruct i; reflexivity|].
  destruct i as [|i]; [reflexivity|]. simpl. apply IH. lia.
Qed.

(** X7: the scan stops only where it has to: in the result either fewer
    than 3 address bytes are left, or the last two address bytes are not a
    registry id and at least one chain id was taken. *)
Theorem scan_stops_at_unregistered (p : Z) (body : list Z) :
  scanPath p body ->
  exists sp,
    splitAddressAndChains p body = Ok sp /\
    let ab := Split.addressBytes sp in
    (length ab < 3 \/
     (Registry.isKnown (readU16BE ab (length ab - 2)) = false /\
      Split.chainIds sp <> [])).
Proof.
  intros Hs. eexists. split; [apply (scanPath_split Hs)|].
  cbn [Split.addressBytes Split.chainIds].
  destruct (scan_result body) as [_ [Hlen _]]. cbv zeta in Hlen.
  destruct (@scanTail_invariant body (fun _ _ => True)) with
    (e := length body) (acc := @nil Z) as [_ Hx]; [auto | exact I |].
  set (e := fst (scanTail body (length body) [])) in *.
  set (acc := snd (scanTail body (length body) [])) in *.
  rewrite Hlen.
  destruct Hx as [Hx|[Hk Hne]]; [left; lia|].
  destruct (le_lt_dec 3 e) as [H3|]; [right | left; assumption].
  split.
  - unfold readU16BE. rewrite !byteAt_firstn by lia. exact Hk.
  - intros E. apply Hne. apply (f_equal (@rev Z)) in E.
    rewrite rev_involutive in E. exact E.
Qed.

(** ** When the scan finds the intended split *)

Lemma byteAt_app1 (l1 l2 : list Z) (i : nat) :
  i < length l1 -> byteAt (l1 ++ l2) i = byteAt l1 i.
Proof. intros H. unfold byteAt. apply app_nth1. exact H. Qed.

Lemma readU16BE_app1 (l1 l2 : list Z) (i : nat) :
  i + 1 < length l1 -> readU16BE (l1 ++ l2) i = readU16BE l1 i.
Proof.
  intros H. unfold readU16BE. rewrite !byteAt_app1 by lia. reflexivity.
Qed.

Lemma readU16BE_app2 (l1 l2 : list Z) (i : nat) :
  readU16BE (l1 ++ l2) (length l1 + i) = readU16BE l2 i.
Proof.
  rewrite <- readU16BE_skipn, skipn_app, skipn_all, Nat.sub_diag. reflexivity.
Qed.

Lemma removelast_seq (n : nat) : removelast (seq 0 (S n)) = seq 0 n.
Proof. rewrite seq_S. apply removelast_last. Qed.

(** All ids of a tail but the last are registered: the ones at the pair
    indices below [k - 1]. *)
Lemma known_before_last (tail : list Z) (k j : nat) :
  length tail = 2 * k ->
  Forall known (removelast (readChainIds tail)) ->
  j + 1 < k ->
  known (readU16BE tail (j * 2)).
Proof.
  intros Hlen Hk Hj.
  rewrite (@readChainIds_even tail k Hlen), removelast_map in Hk.
  destruct k as [|k]; [lia|]. rewrite removelast_seq in Hk.
  rewrite Forall_map, Forall_forall in Hk.
  rewrite Nat.mul_comm. apply Hk. apply in_seq. lia.
Qed.

(** From a cursor [m] pairs behind the address the scan walks back to the
    address and stops there, if it may stop there. *)
Lemma scan_reaches_address (addr tail : list Z) (k : nat) :
  1 <= length addr ->
  1 <= k ->
  length tail = 2 * k ->
  Forall known (removelast (readChainIds tail)) ->
  exits (addr ++ tail) (length addr) [0%Z] ->
  forall m acc,
    m <= k -> (m = k -> acc = []) -> (m < k -> acc <> []) ->
    fst (scanTail (addr ++ tail) (length addr + 2 * m) acc) = length addr.
Proof.
  intros Ha Hk1 Hlen Hk Hstop. induction m as [|m IH]; intros acc Hm Hfirst Hlater.
  - rewrite Nat.mul_0_r, Nat.add_0_r. rewrite scanTail_exit; [reflexivity|].
    destruct Hstop as [Hs|[Hs _]]; [left; exact Hs|].
    right. split; [exact Hs | apply Hlater; lia].
  - assert (Hacc : accepts (addr ++ tail) (length addr + 2 * S m) acc).
    { split; [lia|].
      destruct (Nat.eq_dec (S m) k) as [E|E]; [right; apply Hfirst; exact E|].
      left. replace (length addr + 2 * S m - 2) with (length addr + m * 2) by lia.
      rewrite readU16BE_app2. apply (@known_before_last tail k m Hlen Hk). lia. }
    rewrite (scanTail_accept Hacc).
    replace (length addr + 2 * S m - 2) with (length addr + 2 * m) by lia.
    apply IH; [lia | lia |].
    intros _ E. apply app_eq_nil in E. destruct E as [_ E]. discriminate.
Qed.

(** X8: when the body is an address of at least one byte followed by a
    non-empty even tail whose ids are registered up to the last one, the
    scan returns exactly that address and the ids of that tail if and only
    if the address has fewer than 3 bytes or does not end in two bytes that
    are a registry id.  An address ending in a registry id is cut short. *)
Theorem scan_recovers_split (p : Z) (addr tail : list Z) :
  scanPath p (addr ++ tail) ->
  1 <= length addr ->
  tail <> [] ->
  Nat.Even (length tail) ->
  Forall known (removelast (readChainIds tail)) ->
  (splitAddressAndChains p (addr ++ tail)
     = Ok (Split.mk addr (readChainIds tail) None)
   <->
   (length addr < 3 \/
    Registry.isKnown (readU16BE addr (length addr - 2)) = false)).
Proof.
  intros Hsp Ha Hne [k Hlen] Hk.
  assert (Hk1 : 1 <= k) by (destruct tail; [congruence | simpl in Hlen; lia]).
  rewrite (scanPath_split Hsp).
  destruct (scan_result (addr ++ tail)) as [Hsum [Hfl Hids]].
  cbv zeta in Hsum, Hfl, Hids.
  set (e := fst (scanTail (addr ++ tail) (length (addr ++ tail)) [])) in *.
  set (acc := snd (scanTail (addr ++ tail) (length (addr ++ tail)) [])) in *.
  split.
  - intros E. inversion E as [[Eab Eids]].
    assert (He : e = length addr) by (rewrite <- Hfl, Eab; reflexivity).
    destruct (@scanTail_invariant (addr ++ tail) (fun _ _ => True)) with
      (e := length (addr ++ tail)) (acc := @nil Z) as [_ Hx]; [auto | exact I |].
    fold e acc in Hx. rewrite He in Hx.
    destruct Hx as [Hx|[Hx _]]; [left; lia|].
    destruct (le_lt_dec 3 (length addr)) as [H3|H3]; [right | left; lia].
    rewrite readU16BE_app1 in Hx by lia. rewrite Eab. exact Hx.
  - intros Hstop.
    assert (He : e = length addr).
    { unfold e. rewrite length_app, Hlen.
      apply (@scan_reaches_address addr tail k Ha Hk1 Hlen Hk); [| lia | reflexivity | lia].
      destruct Hstop as [Hs|Hs]; [left; lia|].
      destruct (le_lt_dec 3 (length addr)) as [H3|]; [right | left; lia].
      split; [|discriminate]. rewrite readU16BE_app1 by lia. exact Hs. }
    rewrite Hids, He, firstn_app, Nat.sub_diag, firstn_all, firstn_O, app_nil_r.
    rewrite skipn_app, Nat.sub_diag, skipn_all, skipn_O. reflexivity.
Qed.

(** ** Outcomes of the decode operation *)

Lemma Forall_skipn_bytes (P : Z -> Prop) (n : nat) (l : list Z) :
  Forall P l -> Forall P (skipn n l).
Proof.
  revert l. induction n as [|n IH]; intros l H; [exact H|].
  destruct H as [|a l Ha Hl]; [constructor | apply IH; exact Hl].
Qed.

Lemma assertHex_cases (s : jsstring) :
  assertHex s = Ok tt \/ assertHex s = Throw ExpectedHexString.
Proof.
  unfold assertHex. destruct (_ || _); [right | left]; reflexivity.
Qed.

Lemma startsWith_0x_inv (s : jsstring) :
  startsWith s (str "0x") = true -> s = 48%N :: 120%N :: sliceFrom s 2.
Proof.
  unfold startsWith.
  destruct (list_eq_dec _ _ _) as [E|]; [intros _ | discriminate].
  destruct s as [|a [|b s]]; try discriminate.
  cbn in E. inversion E. reflexivity.
Qed.

(** Only the input 0x passes [assertHex] and holds no byte. *)
Lemma hexToBytes_nil (s : jsstring) :
  assertHex s = Ok tt -> hexToBytes s = Ok [] -> s = str "0x".
Proof.
  intros Ha Hb. apply assertHex_ok in Ha. destruct Ha as [Hs He].
  rewrite (startsWith_0x_inv s Hs).
  unfold hexToBytes in Hb. rewrite Hs in Hb.
  destruct (negb _); [discriminate|]. inversion Hb as [Hm].
  apply map_eq_nil in Hm.
  assert (Hz : length (sliceFrom s 2) / 2 = 0).
  { destruct (length (sliceFrom s 2) / 2); [reflexivity | discriminate]. }
  rewrite (startsWith_0x_length s Hs) in He. destruct He as [k Hk].
  assert (Hl : length (sliceFrom s 2) = 2 * (k - 1)) by lia.
  rewrite Hl, double_half in Hz.
  assert (H0 : length (sliceFrom s 2) = 0) by lia.
  destruct (sliceFrom s 2); [reflexivity | discriminate].
Qed.

Section DecodeOutcomes.

Variables bs58_encode xrpb58_encode : list Z -> option jsstring.
Variable bech32_toWords : list Z -> option (list Z).
Variable bech32_encode : jsstring -> list Z -> option jsstring.

Local Abbreviation decode :=
  (decodeGasZipCalldata bs58_encode xrpb58_encode bech32_toWords bech32_encode).

(** Every input is rejected by [assertHex], is 0x, or is a payload. *)
Lemma input_cases (s : jsstring) :
  (assertHex s = Throw ExpectedHexString /\ decode s = Throw ExpectedHexString) \/
  (s = str "0x" /\ decode s = Throw EmptyCalldataError) \/
  (exists p body, payload s p body).
Proof.
  destruct (assertHex_cases s) as [Ha|Ha].
  - destruct (assertHex_hexToBytes s Ha) as [[|p body] Hb].
    + right. left. split; [apply (@hexToBytes_nil s Ha Hb)|].
      unfold decodeGasZipCalldata. rewrite Ha, Hb. reflexivity.
    + right. right. exists p, body. split; assumption.
  - left. split; [exact Ha|]. unfold decodeGasZipCalldata. rewrite Ha. reflexivity.
Qed.

(** Once the splitter has answered, the decode succeeds: the length checks
    of the dispatcher never fire. *)
Lemma decode_after_split (s : jsstring) (p : Z) (body : list Z) (sp : Split.t) :
  payload s p body ->
  splitAddressAndChains p body = Ok sp ->
  exists dest,
    decode s = Ok (decoded s p (Split.chainIds sp) (kindOf p) dest).
Proof.
  intros Hp Hs. rewrite (decode_split_ok _ _ _ _ Hp Hs). cbv zeta. unfold kindOf.
  destruct (Z.eqb_spec p 1) as [->|]; [eexists; reflexivity|].
  destruct (Z.eqb_spec p 2) as [->|].
  { rewrite (@split_fixed_length 2%Z 20 body sp eq_refl Hs). eexists. reflexivity. }
  destruct (Z.eqb_spec p 4) as [->|].
  { rewrite (@split_fixed_length 4%Z 32 body sp eq_refl Hs). eexists. reflexivity. }
  destruct (Z.eqb_spec p 6) as [->|].
  { rewrite (@split_fixed_length 6%Z 20 body sp eq_refl Hs). eexists. reflexivity. }
  destruct (Z.eqb_spec p 3) as [->|]; [eexists; reflexivity|].
  destruct (Z.eqb_spec p 5) as [->|]; eexists; reflexivity.
Qed.

(** X9: the decode throws four errors only, each in one situation: the
    input does not start with 0x or has odd length; the input is 0x; a
    fixed-length family has a body shorter than its address; a fixed-length
    family has an odd tail.  The length checks of the dispatcher and the
    length check of [hexToBytes] never fire. *)
Theorem decode_throws_exactly (s : jsstring) (e : DecodeError) :
  decode s = Throw e <->
  (e = ExpectedHexString /\
   (startsWith s (str "0x") = false \/ Nat.Odd (length s))) \/
  (e = EmptyCalldataError /\ s = str "0x") \/
  (exists p body L,
      payload s p body /\ fixedLen p = Some L /\
      ((e = CalldataTooShort /\ length body < L) \/
       (e = ChainTailNotEven /\ L <= length body /\
        Nat.Odd (length body - L)))).
Proof.
  split.
  - intros He. destruct (input_cases s) as [[Ha Hd]|[[Hs Hd]|[p [body Hp]]]].
    + left. rewrite Hd in He. inversion He. split; [reflexivity|].
      apply assertHex_throw. exact Ha.
    + right. left. rewrite Hd in He. inversion He. split; [reflexivity | exact Hs].
    + right. right.
      destruct (splitAddressAndChains p body) as [sp|e'] eqn:Hs.
      * destruct (decode_after_split Hp Hs) as [dest Hd].
        rewrite Hd in He. discriminate.
      * rewrite (decode_split_throw _ _ _ _ Hp Hs) in He. inversion He. subst e'.
        destruct (fixedLen p) as [L|] eqn:HL.
        -- exists p, body, L. split; [exact Hp|]. split; [exact HL|].
           rewrite (@split_fixed p L body HL) in Hs.
           destruct (Nat.ltb_spec (length body) L) as [Hlt|Hge].
           ++ inversion Hs. left. split; [reflexivity | exact Hlt].
           ++ destruct (Nat.even (length body - L)) eqn:Hev; [discriminate|].
              inversion Hs. right. split; [reflexivity|]. split; [exact Hge|].
              apply Nat.odd_spec. rewrite <- Nat.negb_even, Hev. reflexivity.
        -- exfalso. unfold splitAddressAndChains in Hs. rewrite HL in Hs.
           destruct (_ && _); [discriminate|].
           destruct (scanTail _ _ _). discriminate.
  - intros [[-> Ha]|[[-> ->]|[p [body [L [Hp [HL Hc]]]]]]].
    + apply assertHex_throw in Ha. unfold decodeGasZipCalldata. rewrite Ha. reflexivity.
    + reflexivity.
    + apply (decode_split_throw _ _ _ _ Hp).
      rewrite (@split_fixed p L body HL).
      destruct Hc as [[-> Hlt]|[-> [Hge Ho]]].
      * rewrite (proj2 (Nat.ltb_lt _ _) Hlt). reflexivity.
      * rewrite (proj2 (Nat.ltb_ge _ _) Hge).
        apply Nat.odd_spec in Ho. rewrite <- Nat.negb_even in Ho. rewrite Ho.
        reflexivity.
Qed.

(** X10: a payload whose prefix has no fixed address length (0x03, 0x05 and
    every prefix outside 0x01..0x06) always decodes, whatever the body. *)
Theorem variable_length_always_decodes (s : jsstring) (p : Z) (body : list Z) :
  payload s p body ->
  fixedLen p = None ->
  exists d, decode s = Ok d /\ type d = kindOf p.
Proof.
  intros Hp HL.
  destruct (splitAddressAndChains p body) as [sp|e] eqn:Hs.
  - destruct (decode_after_split Hp Hs) as [dest Hd].
    eexists. split; [exact Hd | reflexivity].
  - exfalso. unfold splitAddressAndChains in Hs. rewrite HL in Hs.
    destruct (_ && _); [discriminate|].
    destruct (scanTail _ _ _). discriminate.
Qed.

(** A successful decode comes from a payload and a successful split. *)
Lemma decode_ok_inv (s : jsstring) (d : GasZipDecoded) :
  decode s = Ok d ->
  exists p body sp dest,
    payload s p body /\
    splitAddressAndChains p body = Ok sp /\
    d = decoded s p (Split.chainIds sp) (kindOf p) dest.
Proof.
  intros Hd. destruct (input_cases s) as [[_ H]|[[_ H]|[p [body Hp]]]];
    try (rewrite H in Hd; discriminate).
  destruct (splitAddressAndChains p body) as [sp|e] eqn:Hs.
  - destruct (@decode_after_split s p body sp Hp Hs) as [dest H].
    exists p, body, sp, dest. split; [exact Hp|]. split; [exact Hs|].
    rewrite H in Hd. inversion Hd. reflexivity.
  - rewrite (decode_split_throw _ _ _ _ Hp Hs) in Hd. discriminate.
Qed.

(** X11: in every result of the decode, [raw] is the input as given, the
    leftover field is absent, the kind is the one of the first byte, the
    [prefix] field is the hex form of that byte (four characters), and
    there is at most one chain id for each two bytes of the body. *)
Theorem decoded_fields (s : jsstring) (d : GasZipDecoded) :
  decode s = Ok d ->
  raw d = s /\
  leftoversHex d = None /\
  exists p body,
    payload s p body /\
    isByte p /\
    type d = kindOf p /\
    prefix d = bytesToHex [p] /\
    length (prefix d) = 4 /\
    2 * length (chainIds d) <= length body.
Proof.
  intros Hd. destruct (@decode_ok_inv s d Hd) as [p [body [sp [dest [Hp [Hs ->]]]]]].
  split; [reflexivity|]. split; [reflexivity|].
  exists p, body. split; [exact Hp|].
  assert (Hb : isByte p).
  { pose proof (@hexToBytes_isByte s (p :: body) (proj2 Hp)) as H.
    inversion H. assumption. }
  split; [exact Hb|]. split; [reflexivity|].
  assert (Hpre : prefix (decoded s p (Split.chainIds sp) (kindOf p) dest)
                 = bytesToHex [p]).
  { cbn [prefix decoded]. unfold bytesToHex. cbn [map concat].
    rewrite app_nil_r. reflexivity. }
  split; [exact Hpre|]. split.
  - rewrite Hpre. destruct (@bytesToHex_shape [p]) as [_ Hl].
    + repeat constructor; apply Hb.
    + exact Hl.
  - cbn [chainIds decoded]. rewrite length_map.
    destruct (@split_partition p body sp Hs) as [_ [_ Hlen]]. lia.
Qed.

(** X12: every chain-id entry of a result holds an id in 0..65535 with the
    registry's name and native id for it: both are present when the id is a
    registry key and both are absent otherwise. *)
Theorem chain_entries_annotated (s : jsstring) (d : GasZipDecoded) :
  decode s = Ok d ->
  Forall
    (fun e =>
       (0 <= id e < 65536)%Z /\
       name e = option_map Registry.name (Registry.lookupChain (id e)) /\
       nativeId e = option_map Registry.nativeId (Registry.lookupChain (id e)) /\
       (known (id e) -> name e <> None /\ nativeId e <> None) /\
       (~ known (id e) -> name e = None /\ nativeId e = None))
    (chainIds d).
Proof.
  intros Hd. destruct (@decode_ok_inv s d Hd) as [p [body [sp [dest [Hp [Hs ->]]]]]].
  cbn [chainIds decoded]. apply Forall_map.
  destruct (@split_partition p body sp Hs) as [_ [Hids _]].
  assert (Hbody : Forall isByte body).
  { pose proof (@hexToBytes_isByte s (p :: body) (proj2 Hp)) as H.
    inversion H. assumption. }
  rewrite Hids. unfold readChainIds. apply Forall_map. apply Forall_forall.
  intros j _. cbn [id name nativeId annotate].
  split; [apply readU16BE_range; apply Forall_skipn_bytes; exact Hbody|].
  split; [reflexivity|]. split; [reflexivity|].
  unfold known, Registry.isKnown.
  destruct (Registry.lookupChain _); cbn [option_map]; split;
    intros H; split; congruence.
Qed.

(** X13: for prefix 0x03, [solanaLike] is true exactly when the
    deterministic path applies, that is when the address has 32 bytes; off
    that path the scan never leaves a 32-byte address. *)
Theorem solanaLike_iff_fast_path (s : jsstring) (body : list Z) :
  payload s 0x03%Z body ->
  exists sp d,
    splitAddressAndChains 0x03 body = Ok sp /\
    decode s = Ok d /\
    solanaLike (destination d) = Some (length (Split.addressBytes sp) =? 32) /\
    (length (Split.addressBytes sp) = 32 <-> fastPath body) /\
    (solanaLike (destination d) = Some true <-> fastPath body).
Proof.
  intros Hp.
  assert (Hcase : exists sp,
             splitAddressAndChains 0x03 body = Ok sp /\
             (length (Split.addressBytes sp) = 32 <-> fastPath body)).
  { destruct (Nat.leb_spec 32 (length body)) as [H32|Hlt].
    - destruct (Nat.Even_or_Odd (length body - 32)) as [He|Ho].
      + eexists. split; [apply (split_fast (conj H32 He))|].
        cbn [Split.addressBytes]. rewrite (firstn_length_le _ H32).
        split; [intros _; split; assumption | reflexivity].
      + assert (Hsp : scanPath 0x03 body).
        { split; [reflexivity|]. intros [_ [_ He]].
          apply (Nat.Even_Odd_False _ He Ho). }
        eexists. split; [apply (scanPath_split Hsp)|].
        cbn [Split.addressBytes].
        destruct (scan_result body) as [Hsum [Hlen _]]. cbv zeta in Hsum, Hlen.
        rewrite Hlen. split.
        * intros E. exfalso. destruct Ho as [m Hm]. lia.
        * intros [_ He]. destruct (Nat.Even_Odd_False _ He Ho).
    - assert (Hsp : scanPath 0x03 body).
      { split; [reflexivity|]. intros [_ [H32 _]]. lia. }
      eexists. split; [apply (scanPath_split Hsp)|].
      cbn [Split.addressBytes].
      destruct (scan_result body) as [Hsum [Hlen _]]. cbv zeta in Hsum, Hlen.
      rewrite Hlen. split; [lia | intros [H32 _]; lia]. }
  destruct Hcase as [sp [Hs Hiff]].
  exists sp. eexists. split; [exact Hs|].
  rewrite (decode_split_ok _ _ _ _ Hp Hs). cbv zeta.
  split; [reflexivity|]. cbn [destination decoded solanaLike].
  split; [reflexivity|]. split; [exact Hiff|].
  rewrite <- Hiff. split.
  - intros E. inversion E as [E']. apply Nat.eqb_eq. exact E'.
  - intros E. rewrite E. reflexivity.
Qed.

(** X14: writing a prefix of a fixed-length family, an address of its
    length and an even number of tail bytes with [bytesToHex] and decoding
    the string gives back the address in hex and the chain ids of the
    tail. *)
Theorem fixed_family_round_trip (p : Z) (addr tail : list Z) :
  fixedFamily p (length addr) ->
  Forall isByte addr ->
  Forall isByte tail ->
  Nat.Even (length tail) ->
  exists d,
    decode (bytesToHex (p :: addr ++ tail)) = Ok d /\
    type d = kindOf p /\
    addressHex d = (if length addr =? 0 then None else Some (bytesToHex addr)) /\
    map id (chainIds d) = readChainIds tail.
Proof.
  intros Hf Ha Ht He.
  assert (Hb : isByte p).
  { destruct Hf as [E|[E|[E|[E|[]]]]]; inversion E; unfold isByte; lia. }
  assert (Hp : payload (bytesToHex (p :: addr ++ tail)) p (addr ++ tail)).
  { apply bytesToHex_payload. constructor; [exact Hb|].
    apply Forall_app. split; assumption. }
  rewrite (decode_fixed _ _ _ _ Hp Hf).
  rewrite length_app.
  rewrite (proj2 (Nat.ltb_ge _ _)) by lia.
  replace (length addr + length tail - length addr) with (length tail) by lia.
  apply Nat.even_spec in He. rewrite He. cbn [negb].
  rewrite firstn_app, Nat.sub_diag, firstn_all, firstn_O, app_nil_r.
  rewrite skipn_app, Nat.sub_diag, skipn_all, skipn_O. cbn [app].
  eexists. split; [reflexivity|].
  cbn [chainIds decoded]. rewrite map_id_annotate.
  destruct Hf as [E|[E|[E|[E|[]]]]]; inversion E as [[E1 E2]];
    repeat split.
Qed.


End DecodeOutcomes.

(** * Properties of the fetch script *)

(** ** CSV escaping *)

Lemma read_plain (s f rest : jsstring) :
  Fetch.includes s 34 = false ->
  Fetch.includes s 44 = false ->
  readRecord false f (s ++ rest) = readRecord false (f ++ s) rest.
Proof.
  revert f. induction s as [|c s IH]; intros f Hq Hc.
  - rewrite app_nil_r. reflexivity.
  - unfold Fetch.includes in Hq, Hc. cbn [existsb] in Hq, Hc.
    apply orb_false_elim in Hq. destruct Hq as [Hq1 Hq2].
    apply orb_false_elim in Hc. destruct Hc as [Hc1 Hc2].
    rewrite N.eqb_sym in Hq1. rewrite N.eqb_sym in Hc1.
    cbn [app readRecord]. rewrite Hc1, Hq1.
    rewrite (IH (f ++ [c]) Hq2 Hc2), <- app_assoc. reflexivity.
Qed.

Lemma read_quoted (s f rest : jsstring) :
  fieldEnd rest ->
  readRecord true f (Fetch.doubleQuotes s ++ 34%N :: rest)
    = readRecord false (f ++ s) rest.
Proof.
  intros Hr. revert f. induction s as [|c s IH]; intros f.
  - rewrite app_nil_r. cbn [Fetch.doubleQuotes flat_map app readRecord N.eqb Pos.eqb].
    destruct Hr as [->|[r ->]]; reflexivity.
  - cbn [Fetch.doubleQuotes flat_map].
    fold (Fetch.doubleQuotes s).
    destruct (N.eqb_spec c 34) as [->|Hne].
    + cbn [app readRecord N.eqb Pos.eqb].
      rewrite IH, <- app_assoc. reflexivity.
    + cbn [app readRecord]. rewrite (proj2 (N.eqb_neq _ _) Hne).
      rewrite IH, <- app_assoc. reflexivity.
Qed.

Lemma read_field (v : option jsstring) (f rest : jsstring) :
  fieldEnd rest ->
  readRecord false f (Fetch.csvEscape v ++ rest)
    = readRecord false (f ++ textOf v) rest.
Proof.
  intros Hr. unfold Fetch.csvEscape. fold (textOf v).
  destruct (Fetch.includes (textOf v) 34) eqn:Hq;
    [|destruct (Fetch.includes (textOf v) 44) eqn:Hc].
  1, 2: cbn [orb app readRecord N.eqb Pos.eqb];
    rewrite ?orb_true_r; cbn [app readRecord N.eqb Pos.eqb];
    rewrite <- app_assoc; apply (read_quoted _ _ Hr).
  cbn [orb].
  destruct (Fetch.includes (textOf v) 10).
  - cbn [app readRecord N.eqb Pos.eqb].
    rewrite <- app_assoc. apply (read_quoted _ _ Hr).
  - apply read_plain; assumption.
Qed.

Lemma read_fields (v : option jsstring) (rest : list (option jsstring)) :
  readRecord false []
    (Fetch.csvEscape v
       ++ flat_map (fun y => [44%N] ++ y) (map Fetch.csvEscape rest))
  = textOf v :: map textOf rest.
Proof.
  revert v. induction rest as [|y rest IH]; intros v.
  - cbn [map flat_map]. rewrite read_field by (left; reflexivity). reflexivity.
  - cbn [map flat_map app].
    rewrite read_field by (right; eexists; reflexivity).
    cbn [app readRecord N.eqb Pos.eqb]. rewrite IH. reflexivity.
Qed.

(** X16: a line written by the fetch script reads back field by field: a
    reader in the way of RFC 4180 finds, in the escaped and comma-joined
    line of a non-empty row, exactly the texts of the values, also when
    they hold commas, double quotes or line feeds. *)
Theorem csv_row_round_trip (fields : list (option jsstring)) :
  fields <> [] ->
  readRecord false [] (Fetch.csvRow fields) = map textOf fields.
Proof.
  intros Hne. destruct fields as [|v rest]; [congruence|].
  unfold Fetch.csvRow, Fetch.join. cbn [map]. apply read_fields.
Qed.

Lemma doubleQuotes_count (s : jsstring) :
  count_occ N.eq_dec (Fetch.doubleQuotes s) 34%N
  = 2 * count_occ N.eq_dec s 34%N.
Proof.
  induction s as [|c s IH]; [reflexivity|].
  cbn [Fetch.doubleQuotes flat_map]. fold (Fetch.doubleQuotes s).
  rewrite count_occ_app, IH.
  destruct (N.eqb_spec c 34) as [->|Hne].
  - rewrite count_occ_cons_eq by reflexivity. cbn. lia.
  - rewrite (count_occ_cons_neq _ _ Hne). cbn [count_occ].
    destruct (N.eq_dec c 34); [contradiction | lia].
Qed.

Lemma includes_false_count (s : jsstring) (c : N) :
  Fetch.includes s c = false -> count_occ N.eq_dec s c = 0.
Proof.
  intros H. apply count_occ_not_In. intros Hin.
  unfold Fetch.includes in H.
  assert (Ht : existsb (N.eqb c) s = true).
  { apply existsb_exists. exists c. split; [exact Hin | apply N.eqb_refl]. }
  congruence.
Qed.

(** X17: [csvEscape] gives different fields for different strings, and a
    field it writes holds an even number of double quotes, so that the
    quotes of a line pair up. *)
Theorem csvEscape_faithful (s1 s2 : jsstring) (v : option jsstring) :
  (Fetch.csvEscape (Some s1) = Fetch.csvEscape (Some s2) -> s1 = s2) /\
  Nat.Even (count_occ N.eq_dec (Fetch.csvEscape v) 34%N).
Proof.
  split.
  - intros E.
    pose proof (@read_field (Some s1) [] [] (or_introl eq_refl)) as H1.
    pose proof (@read_field (Some s2) [] [] (or_introl eq_refl)) as H2.
    rewrite app_nil_r in H1, H2. rewrite E, H2 in H1.
    cbn in H1. inversion H1. reflexivity.
  - unfold Fetch.csvEscape. fold (textOf v).
    destruct (Fetch.includes (textOf v) 34) eqn:Hq.
    + cbn [orb]. rewrite !count_occ_app, doubleQuotes_count. cbn.
      exists (1 + count_occ N.eq_dec (textOf v) 34%N). lia.
    + destruct (_ || _).
      * rewrite !count_occ_app, doubleQuotes_count,
          (includes_false_count _ _ Hq). cbn. exists 1. reflexivity.
      * rewrite (includes_false_count _ _ Hq). exists 0. reflexivity.
Qed.

(** ** Amounts in ether *)

Section FormatEth.

Local Open Scope Z_scope.

Lemma pow10_succ (n : nat) : 10 ^ Z.of_nat (S n) = 10 * 10 ^ Z.of_nat n.
Proof. rewrite Nat2Z.inj_succ. apply Z.pow_succ_r. lia. Qed.

Lemma pow10_pos (n : nat) : 0 < 10 ^ Z.of_nat n.
Proof. apply Z.pow_pos_nonneg; lia. Qed.

Lemma decimal_fold (l : jsstring) (a : Z) :
  fold_left (fun a c => a * 10 + (Z.of_N c - 48)) l a
  = a * 10 ^ Z.of_nat (length l)
    + fold_left (fun a c => a * 10 + (Z.of_N c - 48)) l 0.
Proof.
  revert a. induction l as [|c l IH]; intros a.
  - cbn. lia.
  - cbn [fold_left length]. rewrite (IH (a * 10 + _)), (IH (0 * 10 + _)).
    rewrite pow10_succ. ring.
Qed.

Lemma decimalValue_app (l1 l2 : jsstring) :
  decimalValue (l1 ++ l2)
  = decimalValue l1 * 10 ^ Z.of_nat (length l2) + decimalValue l2.
Proof.
  unfold decimalValue. rewrite fold_left_app. apply decimal_fold.
Qed.

Lemma decimalValue_cons (c : N) (l : jsstring) :
  decimalValue (c :: l)
  = (Z.of_N c - 48) * 10 ^ Z.of_nat (length l) + decimalValue l.
Proof.
  change (c :: l) with ([c] ++ l). rewrite decimalValue_app.
  unfold decimalValue at 1. cbn [fold_left]. lia.
Qed.

Lemma decimalValue_zeros (j : nat) : decimalValue (repeat 48%N j) = 0.
Proof.
  induction j as [|j IH]; [reflexivity|].
  cbn [repeat]. rewrite decimalValue_cons, IH. lia.
Qed.

Lemma decimalValue_nonneg (s : jsstring) :
  Forall isDigit s -> 0 <= decimalValue s.
Proof.
  induction 1 as [|c s Hc _ IH]; [unfold decimalValue; cbn; lia|].
  rewrite decimalValue_cons. unfold isDigit in Hc.
  pose proof (pow10_pos (length s)). nia.
Qed.

Lemma digit_char (d : Z) :
  0 <= d < 10 -> Z.of_N (Z.to_N (48 + d)) - 48 = d /\ isDigit (Z.to_N (48 + d)).
Proof.
  intros H. rewrite Z2N.id by lia. split; [lia|]. unfold isDigit. lia.
Qed.

(** With enough fuel [decDigits] writes [n] in front of [acc]. *)
Lemma decDigits_value (fuel : nat) :
  forall n acc,
    0 <= n < 2 ^ Z.of_nat fuel ->
    decimalValue (Fetch.decDigits fuel n acc)
    = n * 10 ^ Z.of_nat (length acc) + decimalValue acc.
Proof.
  induction fuel as [|fuel IH]; intros n acc Hn.
  - cbn in Hn. assert (n = 0) by lia. subst n. cbn [Fetch.decDigits]. lia.
  - cbn [Fetch.decDigits].
    pose proof (Z.mod_pos_bound n 10 ltac:(lia)) as Hm.
    destruct (digit_char Hm) as [Hd _].
    destruct (Z.ltb_spec n 10) as [Hlt|Hge].
    + rewrite decimalValue_cons, Hd. rewrite Z.mod_small by lia. reflexivity.
    + rewrite IH.
      * rewrite decimalValue_cons, Hd. cbn [length]. rewrite pow10_succ.
        rewrite (Z.div_mod n 10) at 3 by lia. ring.
      * rewrite Nat2Z.inj_succ, Z.pow_succ_r in Hn by lia.
        split; [apply Z.div_pos; lia|].
        apply Z.div_lt_upper_bound; lia.
Qed.

Lemma decDigits_digits (fuel : nat) :
  forall n acc,
    0 <= n -> Forall isDigit acc -> Forall isDigit (Fetch.decDigits fuel n acc).
Proof.
  induction fuel as [|fuel IH]; intros n acc Hn Hacc; [exact Hacc|].
  cbn [Fetch.decDigits].
  pose proof (Z.mod_pos_bound n 10 ltac:(lia)) as Hm.
  destruct (digit_char Hm) as [_ Hd].
  destruct (n <? 10).
  - constructor; assumption.
  - apply IH; [apply Z.div_pos; lia | constructor; assumption].
Qed.

Lemma decDigits_length (fuel : nat) :
  forall n acc (k : nat),
    0 <= n < 10 ^ Z.of_nat k -> (1 <= k)%nat ->
    (length (Fetch.decDigits (S fuel) n acc) <= k + length acc)%nat /\
    (1 + length acc <= length (Fetch.decDigits (S fuel) n acc))%nat.
Proof.
  induction fuel as [|fuel IH]; intros n acc k Hn Hk.
  - cbn [Fetch.decDigits]. destruct (n <? 10); cbn [length]; lia.
  - change (Fetch.decDigits (S (S fuel)) n acc)
      with (let acc' := Z.to_N (48 + n mod 10) :: acc in
            if n <? 10 then acc' else Fetch.decDigits (S fuel) (n / 10) acc').
    cbv zeta. destruct (Z.ltb_spec n 10) as [Hlt|Hge]; [cbn [length]; lia|].
    destruct k as [|[|k]]; [lia | cbn in Hn; lia |].
    destruct (IH (n / 10) (Z.to_N (48 + n mod 10) :: acc) (S k)) as [H1 H2];
      [|lia|cbn [length] in *; lia].
    rewrite pow10_succ in Hn.
    split; [apply Z.div_pos; lia|]. apply Z.div_lt_upper_bound; lia.
Qed.

Lemma decDigits_grows (fuel : nat) :
  forall n acc, (length acc <= length (Fetch.decDigits fuel n acc))%nat.
Proof.
  induction fuel as [|fuel IH]; intros n acc; [cbn; lia|].
  cbn [Fetch.decDigits]. destruct (n <? 10); [cbn [length]; lia|].
  specialize (IH (n / 10) (Z.to_N (48 + n mod 10) :: acc)).
  cbn [length] in IH. lia.
Qed.

Lemma BigInt_toString_nonempty (n : Z) : Fetch.BigInt_toString n <> [].
Proof.
  unfold Fetch.BigInt_toString. destruct (n <? 0); [discriminate|].
  cbn [Fetch.decDigits]. destruct (n <? 10); [discriminate|].
  intros E. apply (f_equal (@length N)) in E.
  pose proof (decDigits_grows (Z.to_nat (Z.log2 n)) (n / 10)
                [Z.to_N (48 + n mod 10)]) as H.
  rewrite E in H. cbn in H. lia.
Qed.

Lemma BigInt_toString_nonneg (n : Z) :
  0 <= n ->
  decimalValue (Fetch.BigInt_toString n) = n /\
  Forall isDigit (Fetch.BigInt_toString n) /\
  forall k : nat, n < 10 ^ Z.of_nat k -> (1 <= k)%nat ->
                  (1 <= length (Fetch.BigInt_toString n) <= k)%nat.
Proof.
  intros Hn. unfold Fetch.BigInt_toString.
  rewrite (proj2 (Z.ltb_ge n 0) Hn).
  split; [|split].
  - rewrite decDigits_value; [unfold decimalValue; cbn; lia|].
    split; [exact Hn|].
    rewrite Nat2Z.inj_succ, Z2Nat.id by apply Z.log2_nonneg.
    destruct (Z.eq_dec n 0) as [->|Hne]; [reflexivity|].
    apply Z.log2_spec. lia.
  - apply decDigits_digits; [exact Hn | constructor].
  - intros k Hk Hk1.
    destruct (@decDigits_length (Z.to_nat (Z.log2 n)) n [] k) as [H1 H2];
      [lia | exact Hk1 | cbn [length] in *; lia].
Qed.

Lemma rev_repeat_same {A} (x : A) (j : nat) : rev (repeat x j) = repeat x j.
Proof.
  induction j as [|j IH]; [reflexivity|].
  cbn [repeat rev]. rewrite IH. symmetry. apply repeat_cons.
Qed.

Lemma dropZeros_spec (s : jsstring) :
  exists j : nat,
    s = repeat 48%N j ++ Fetch.dropZeros s /\
    hd 49%N (Fetch.dropZeros s) <> 48%N.
Proof.
  induction s as [|c s [j [IH1 IH2]]].
  - exists 0%nat. split; [reflexivity | discriminate].
  - cbn [Fetch.dropZeros]. destruct (N.eqb_spec c 48) as [->|Hne].
    + exists (S j). split; [cbn [repeat app]; f_equal; exact IH1 | exact IH2].
    + exists 0%nat. split; [reflexivity | exact Hne].
Qed.

Lemma stripTrailingZeros_spec (s : jsstring) :
  exists j : nat,
    s = Fetch.stripTrailingZeros s ++ repeat 48%N j /\
    last (Fetch.stripTrailingZeros s) 49%N <> 48%N.
Proof.
  destruct (dropZeros_spec (rev s)) as [j [H1 H2]].
  exists j. unfold Fetch.stripTrailingZeros. split.
  - rewrite <- (rev_involutive s) at 1. rewrite H1 at 1.
    rewrite rev_app_distr, rev_repeat_same. reflexivity.
  - rewrite last_rev_hd. exact H2.
Qed.

(** X18: [formatEth] writes a non-negative amount of wei exactly: decimal
    digits of the whole ethers, then, only when the amount is not a whole
    number of ethers, a point and at most 18 decimals without a trailing
    zero; the digits read as whole * 10^18 + decimals scaled to 18 places
    give the amount back. *)
Theorem formatEth_exact (wei : Z) :
  0 <= wei ->
  exists wholeDigits fracDigits : jsstring,
    Fetch.formatEth (Some wei)
      = wholeDigits ++ match fracDigits with
                       | [] => []
                       | _ :: _ => 46%N :: fracDigits
                       end /\
    wholeDigits <> [] /\
    Forall isDigit wholeDigits /\
    Forall isDigit fracDigits /\
    (length fracDigits <= 18)%nat /\
    last fracDigits 49%N <> 48%N /\
    (fracDigits = [] <-> wei mod 10 ^ 18 = 0) /\
    wei = decimalValue wholeDigits * 10 ^ 18
          + decimalValue fracDigits * 10 ^ (18 - Z.of_nat (length fracDigits)).
Proof.
  intros Hw.
  assert (Hb : 0 < 10 ^ 18) by reflexivity.
  pose proof (Z.mod_pos_bound wei (10 ^ 18) Hb) as Hfrac.
  assert (Hwhole : 0 <= wei / 10 ^ 18) by (apply Z.div_pos; lia).
  destruct (BigInt_toString_nonneg Hwhole) as [Wv [Wd Wl]].
  destruct (BigInt_toString_nonneg (proj1 Hfrac)) as [Fv [Fd Fl]].
  specialize (Fl 18%nat (proj2 Hfrac) ltac:(lia)).
  set (W := Fetch.BigInt_toString (wei / 10 ^ 18)) in *.
  set (D := Fetch.BigInt_toString (wei mod 10 ^ 18)) in *.
  set (P := padStart0 D 18).
  assert (HP : P = repeat 48%N (18 - length D) ++ D) by reflexivity.
  assert (HPl : length P = 18%nat).
  { rewrite HP, length_app, repeat_length. lia. }
  assert (HPv : decimalValue P = wei mod 10 ^ 18).
  { rewrite HP, decimalValue_app, decimalValue_zeros, Fv. lia. }
  assert (HPd : Forall isDigit P).
  { rewrite HP. apply Forall_app. split; [|exact Fd].
    apply Forall_forall. intros c Hc. apply repeat_spec in Hc. subst c.
    unfold isDigit. lia. }
  destruct (stripTrailingZeros_spec P) as [j [Hr Hlast]].
  set (r := Fetch.stripTrailingZeros P) in *.
  assert (Hrl : (length r + j = 18)%nat).
  { rewrite <- HPl, Hr, length_app, repeat_length. reflexivity. }
  assert (Hrd : Forall isDigit r).
  { rewrite Hr in HPd. apply Forall_app in HPd. exact (proj1 HPd). }
  assert (Hrv : decimalValue r * 10 ^ Z.of_nat j = wei mod 10 ^ 18).
  { rewrite <- HPv, Hr, decimalValue_app, decimalValue_zeros, repeat_length. lia. }
  assert (Hform : Fetch.formatEth (Some wei)
                  = if (0 <? length r)%nat then W ++ [46%N] ++ r else W).
  { unfold Fetch.formatEth. cbv zeta.
    rewrite Z.quot_div_nonneg, Z.rem_mod_nonneg by lia. reflexivity. }
  exists W, r. split; [|split; [|split; [|split; [|split; [|split; [|split]]]]]].
  - rewrite Hform. destruct r; [symmetry; apply app_nil_r | reflexivity].
  - apply BigInt_toString_nonempty.
  - exact Wd.
  - exact Hrd.
  - lia.
  - exact Hlast.
  - split.
    + intros E. rewrite <- Hrv, E. reflexivity.
    + intros E. rewrite E in Hrv.
      destruct r as [|c r'] eqn:Er using rev_ind; [reflexivity|].
      exfalso. rewrite last_last in Hlast.
      apply Forall_app in Hrd. destruct Hrd as [Hd1 Hd2].
      inversion Hd2 as [|? ? Hc _]. unfold isDigit in Hc.
      rewrite decimalValue_app in Hrv. cbn [length] in Hrv.
      pose proof (decimalValue_nonneg Hd1) as Hn.
      unfold decimalValue at 2 in Hrv. cbn [fold_left] in Hrv.
      pose proof (pow10_pos j).
      assert (0 < Z.of_N c - 48) by lia. nia.
  - rewrite (Z.div_mod wei (10 ^ 18)) at 1 by lia.
    rewrite Wv, <- Hrv. replace (18 - Z.of_nat (length r)) with (Z.of_nat j) by lia.
    ring.
Qed.

End FormatEth.

(** ** Command-line arguments *)

Lemma strEq_true (a b : jsstring) : Fetch.strEq a b = true -> a = b.
Proof.
  unfold Fetch.strEq. destruct (list_eq_dec _ _ _); [auto | discriminate].
Qed.

Lemma list_pair_ind {A} (P : list A -> Prop) :
  P [] ->
  (forall a, P [a]) ->
  (forall a b l, P l -> P (b :: l) -> P (a :: b :: l)) ->
  forall l, P l.
Proof.
  intros H0 H1 H2 l.
  assert (H : P l /\ forall a, P (a :: l)).
  { induction l as [|b l [IH1 IH2]].
    - split; [exact H0 | exact H1].
    - split; [apply IH2 | intros a; apply H2; [exact IH1 | apply IH2]]. }
  exact (proj1 H).
Qed.

Lemma follows_skip2 (flag a b v : jsstring) (l : list jsstring) :
  follows flag l v -> follows flag (a :: b :: l) v.
Proof.
  intros [pre [post ->]]. exists (a :: b :: pre), post. reflexivity.
Qed.

Lemma follows_skip1 (flag a v : jsstring) (l : list jsstring) :
  follows flag l v -> follows flag (a :: l) v.
Proof.
  intros [pre [post ->]]. exists (a :: pre), post. reflexivity.
Qed.

Lemma follows_here (flag v : jsstring) (l : list jsstring) :
  follows flag (flag :: v :: l) v.
Proof. exists [], l. reflexivity. Qed.

Lemma follows_In (flag v : jsstring) (l : list jsstring) :
  follows flag l v -> In flag l.
Proof.
  intros [pre [post ->]]. apply in_or_app. right. left. reflexivity.
Qed.

Section ArgsProperties.

Variable num : Type.
Variable Number : option jsstring -> num.

Local Abbreviation parseFrom := (@Fetch.parseArgsFrom num Number).

(** Every test of the loop body decided, and the flag found named. *)
Ltac flag_cases a :=
  repeat match goal with
         | |- context [Fetch.strEq a ?f] =>
             let E := fresh "E" in
             destruct (Fetch.strEq a f) eqn:E;
             [apply strEq_true in E|]
         end.

Ltac field_step IHl IHbl :=
  intros H;
  first
    [ apply IHl in H;
      destruct H as [H|H];
      [ cbn in H;
        first [ left; exact H
              | inversion H; subst; right; apply follows_here
              | inversion H; subst; right; left; apply follows_here
              | inversion H; subst; right; right; apply follows_here ]
      | right; first [ apply follows_skip2; exact H
                     | destruct H as [H|H];
                       [left | right]; apply follows_skip2; exact H ] ]
    | apply IHbl in H;
      destruct H as [H|H];
      [ left; exact H
      | right; first [ apply follows_skip1; exact H
                     | destruct H as [H|H];
                       [left | right]; apply follows_skip1; exact H ] ] ].

Lemma parseFrom_out (argv : list jsstring) :
  forall args v,
    Fetch.out (parseFrom args argv) = Some v ->
    Fetch.out args = Some v \/ follows (str "--out") argv v.
Proof.
  induction argv as [|a|a b l IHl IHbl] using list_pair_ind; intros args v.
  - intros H. left. exact H.
  - cbn [Fetch.parseArgsFrom hd_error]. flag_cases a;
      intros H; cbn in H; first [left; exact H | discriminate].
  - cbn [Fetch.parseArgsFrom hd_error]. flag_cases a; field_step IHl IHbl.
Qed.

Lemma parseFrom_addr (argv : list jsstring) :
  forall args v,
    Fetch.addr (parseFrom args argv) = Some v ->
    Fetch.addr args = Some v \/ follows (str "--addr") argv v.
Proof.
  induction argv as [|a|a b l IHl IHbl] using list_pair_ind; intros args v.
  - intros H. left. exact H.
  - cbn [Fetch.parseArgsFrom hd_error]. flag_cases a;
      intros H; cbn in H; first [left; exact H | discriminate].
  - cbn [Fetch.parseArgsFrom hd_error]. flag_cases a; field_step IHl IHbl.
Qed.

Lemma parseFrom_url (argv : list jsstring) :
  forall args v,
    Fetch.url (parseFrom args argv) = Some v ->
    Fetch.url args = Some v \/ follows (str "--url") argv v.
Proof.
  induction argv as [|a|a b l IHl IHbl] using list_pair_ind; intros args v.
  - intros H. left. exact H.
  - cbn [Fetch.parseArgsFrom hd_error]. flag_cases a;
      intros H; cbn in H; first [left; exact H | discriminate].
  - cbn [Fetch.parseArgsFrom hd_error]. flag_cases a; field_step IHl IHbl.
Qed.

Lemma parseFrom_apiToken (argv : list jsstring) :
  forall args v,
    Fetch.apiToken (parseFrom args argv) = Some v ->
    Fetch.apiToken args = Some v \/
    (follows (str "--api-token") argv v \/ follows (str "--token") argv v).
Proof.
  induction argv as [|a|a b l IHl IHbl] using list_pair_ind; intros args v.
  - intros H. left. exact H.
  - cbn [Fetch.parseArgsFrom hd_error]. flag_cases a;
      intros H; cbn in H; first [left; exact H | discriminate].
  - cbn [Fetch.parseArgsFrom hd_error]. flag_cases a; field_step IHl IHbl.
Qed.

(** X19: [parseArgs] sets a text option only from the element that comes
    right after one of its flags: out after --out, addr after --addr, url
    after --url, apiToken after --api-token or --token.  An option whose
    flag does not occur in the arguments stays unset. *)
Theorem parseArgs_provenance (argv : list jsstring) (v : jsstring) :
  let args := Fetch.parseArgs Number argv in
  (Fetch.out args = Some v -> follows (str "--out") argv v) /\
  (Fetch.addr args = Some v -> follows (str "--addr") argv v) /\
  (Fetch.url args = Some v -> follows (str "--url") argv v) /\
  (Fetch.apiToken args = Some v ->
   follows (str "--api-token") argv v \/ follows (str "--token") argv v) /\
  (~ In (str "--out") argv -> Fetch.out args = None) /\
  (~ In (str "--addr") argv -> Fetch.addr args = None) /\
  (~ In (str "--url") argv -> Fetch.url args = None).
Proof.
  intros args. unfold args, Fetch.parseArgs.
  assert (Ho := fun w => @parseFrom_out argv (Fetch.noArgs num) w).
  assert (Ha := fun w => @parseFrom_addr argv (Fetch.noArgs num) w).
  assert (Hu := fun w => @parseFrom_url argv (Fetch.noArgs num) w).
  assert (Ht := @parseFrom_apiToken argv (Fetch.noArgs num) v).
  split; [intros H; destruct (Ho v H) as [H'|H']; [discriminate | exact H']|].
  split; [intros H; destruct (Ha v H) as [H'|H']; [discriminate | exact H']|].
  split; [intros H; destruct (Hu v H) as [H'|H']; [discriminate | exact H']|].
  split; [intros H; destruct (Ht H) as [H'|H']; [discriminate | exact H']|].
  split; [|split].
  - intros Hn. destruct (Fetch.out _) as [w|] eqn:E; [|reflexivity].
    destruct (Ho w eq_refl) as [H'|H']; [discriminate|].
    destruct (Hn (follows_In H')).
  - intros Hn. destruct (Fetch.addr _) as [w|] eqn:E; [|reflexivity].
    destruct (Ha w eq_refl) as [H'|H']; [discriminate|].
    destruct (Hn (follows_In H')).
  - intros Hn. destruct (Fetch.url _) as [w|] eqn:E; [|reflexivity].
    destruct (Hu w eq_refl) as [H'|H']; [discriminate|].
    destruct (Hn (follows_In H')).
Qed.

End ArgsProperties.

(** * Instances of the further properties *)

Lemma sampleBytes_isByte : Forall isByte sampleBytes.
Proof.
  repeat (apply Forall_cons; [unfold isByte; lia|]). apply Forall_nil.
Defined.

Lemma hex_round_trip_witness :
  Forall isByte sampleBytes /\
  hexToBytes (bytesToHex sampleBytes) = Ok sampleBytes.
Proof.
  split; [exact sampleBytes_isByte|].
  exact (@hex_round_trip sampleBytes sampleBytes_isByte).
Defined.

Lemma bytesToHex_well_formed_witness :
  Forall isByte sampleBytes /\
  sampleBytes <> [] /\
  startsWith (bytesToHex sampleBytes) (str "0x") = true /\
  length (bytesToHex sampleBytes) = 2 + 2 * length sampleBytes /\
  forallb isLowerHexChar (sliceFrom (bytesToHex sampleBytes) 2) = true /\
  assertHex (bytesToHex sampleBytes) = Ok tt /\
  validHex (bytesToHex sampleBytes).
Proof.
  assert (Hn : sampleBytes <> []) by discriminate.
  split; [exact sampleBytes_isByte|]. split; [exact Hn|].
  destruct (@bytesToHex_well_formed sampleBytes sampleBytes_isByte)
    as [H1 [H2 [H3 [H4 [H5 _]]]]].
  split; [exact H1|]. split; [exact H2|]. split; [exact H3|].
  split; [exact H4|]. exact (proj1 H5 Hn).
Defined.

Lemma hexToBytes_bytes_witness :
  Nat.Even (length (sliceFrom nonHexPayload 2)) /\
  exists data,
    hexToBytes nonHexPayload = Ok data /\
    2 * length data = length (sliceFrom nonHexPayload 2) /\
    Forall isByte data.
Proof.
  assert (He : Nat.Even (length (sliceFrom nonHexPayload 2)))
    by (exists 1; reflexivity).
  split; [exact He|].
  exact (proj2 (@hexToBytes_bytes nonHexPayload) He).
Defined.

Lemma readU16BE_big_endian_witness :
  Forall isByte sampleBytes /\
  readU16BE sampleBytes 1
    = (nth 1 sampleBytes 0 * 256 + nth (1 + 1) sampleBytes 0)%Z /\
  (0 <= readU16BE sampleBytes 1 < 65536)%Z /\
  (length sampleBytes <= 1 -> readU16BE sampleBytes 1 = 0%Z).
Proof.
  split; [exact sampleBytes_isByte|].
  exact (@readU16BE_big_endian sampleBytes 1 sampleBytes_isByte).
Defined.

Example readU16BE_sample : readU16BE sampleBytes 1 = 1535%Z.
Proof. reflexivity. Qed.

Lemma split_partitions_body_witness :
  splitAddressAndChains 0x05 xrpBody = Ok xrpSplit /\
  exists rest,
    xrpBody = Split.addressBytes xrpSplit ++ rest /\
    Split.chainIds xrpSplit = readChainIds rest /\
    length rest = 2 * length (Split.chainIds xrpSplit).
Proof.
  assert (Hs : splitAddressAndChains 0x05 xrpBody = Ok xrpSplit) by reflexivity.
  split; [exact Hs|].
  exact (@split_partitions_body 0x05%Z xrpBody xrpSplit Hs).
Defined.

Lemma xrpBody_scanPath : scanPath 0x05 xrpBody.
Proof.
  split; [reflexivity|]. intros [H _]. discriminate.
Defined.

Lemma scan_takes_last_two_bytes_witness :
  scanPath 0x05 xrpBody /\
  3 <= length xrpBody /\
  exists sp,
    splitAddressAndChains 0x05 xrpBody = Ok sp /\
    Split.chainIds sp <> [] /\
    last (Split.chainIds sp) 0%Z = readU16BE xrpBody (length xrpBody - 2).
Proof.
  assert (Hl : 3 <= length xrpBody) by (simpl; lia).
  split; [exact xrpBody_scanPath|]. split; [exact Hl|].
  exact (@scan_takes_last_two_bytes 0x05%Z xrpBody xrpBody_scanPath Hl).
Defined.

Lemma scan_stops_at_unregistered_witness :
  scanPath 0x05 xrpBody /\
  exists sp,
    splitAddressAndChains 0x05 xrpBody = Ok sp /\
    (length (Split.addressBytes sp) < 3 \/
     (Registry.isKnown
        (readU16BE (Split.addressBytes sp)
           (length (Split.addressBytes sp) - 2)) = false /\
      Split.chainIds sp <> [])).
Proof.
  split; [exact xrpBody_scanPath|].
  exact (@scan_stops_at_unregistered 0x05%Z xrpBody xrpBody_scanPath).
Defined.

Lemma scan_recovers_split_witness :
  scanPath 0x05 (xrpAddress ++ xrpTail) /\
  1 <= length xrpAddress /\
  xrpTail <> [] /\
  Nat.Even (length xrpTail) /\
  Forall known (removelast (readChainIds xrpTail)) /\
  (splitAddressAndChains 0x05 (xrpAddress ++ xrpTail)
     = Ok (Split.mk xrpAddress (readChainIds xrpTail) None)
   <->
   (length xrpAddress < 3 \/
    Registry.isKnown (readU16BE xrpAddress (length xrpAddress - 2)) = false)).
Proof.
  assert (Ha : 1 <= length xrpAddress) by (simpl; lia).
  assert (Hn : xrpTail <> []) by discriminate.
  assert (He : Nat.Even (length xrpTail)) by (exists 2; reflexivity).
  assert (Hk : Forall known (removelast (readChainIds xrpTail))).
  { apply Forall_cons; [reflexivity | apply Forall_nil]. }
  split; [exact xrpBody_scanPath|]. split; [exact Ha|]. split; [exact Hn|].
  split; [exact He|]. split; [exact Hk|].
  exact (@scan_recovers_split 0x05%Z xrpAddress xrpTail xrpBody_scanPath
           Ha Hn He Hk).
Defined.

(** An address that ends in a registry id is cut: with the two address
    bytes 0x00 0x36 before the same tail the scan takes them as a chain id. *)
Example scan_cuts_address :
  splitAddressAndChains 0x05 ([0xaa; 0x00; 0x36] ++ xrpTail)%Z
    = Ok (Split.mk [0xaa]%Z [54; 54; 2457]%Z None).
Proof. reflexivity. Qed.

Lemma decode_throws_exactly_witness :
  decodeNoText (str "0x") = Throw EmptyCalldataError /\
  decodeNoText shortEvmPayload = Throw CalldataTooShort.
Proof.
  split.
  - apply (proj2 (@decode_throws_exactly throwing throwing throwing
                    (fun _ => throwing) (str "0x") EmptyCalldataError)).
    right. left. split; reflexivity.
  - apply (proj2 (@decode_throws_exactly throwing throwing throwing
                    (fun _ => throwing) shortEvmPayload CalldataTooShort)).
    right. right. exists 0x02%Z, shortEvmBody, 20.
    split; [split; reflexivity|]. split; [reflexivity|].
    left. split; [reflexivity | simpl; lia].
Defined.

Lemma variable_length_always_decodes_witness :
  payload xrpPayload 0x05 xrpBody /\
  fixedLen 0x05 = None /\
  exists d, decodeNoText xrpPayload = Ok d /\ type d = kindOf 0x05.
Proof.
  assert (Hp : payload xrpPayload 0x05 xrpBody) by (split; reflexivity).
  split; [exact Hp|]. split; [reflexivity|].
  exact (@variable_length_always_decodes throwing throwing throwing
           (fun _ => throwing) xrpPayload 0x05%Z xrpBody Hp eq_refl).
Defined.

Lemma decoded_fields_witness :
  decodeNoText evmPayload = Ok evmDecoded /\
  raw evmDecoded = evmPayload /\
  leftoversHex evmDecoded = None /\
  exists p body,
    payload evmPayload p body /\
    isByte p /\
    type evmDecoded = kindOf p /\
    prefix evmDecoded = bytesToHex [p] /\
    length (prefix evmDecoded) = 4 /\
    2 * length (chainIds evmDecoded) <= length body.
Proof.
  assert (Hd : decodeNoText evmPayload = Ok evmDecoded) by reflexivity.
  split; [exact Hd|].
  exact (@decoded_fields throwing throwing throwing (fun _ => throwing)
           evmPayload evmDecoded Hd).
Defined.

Lemma chain_entries_annotated_witness :
  decodeNoText evmPayload = Ok evmDecoded /\
  Forall
    (fun e =>
       (0 <= id e < 65536)%Z /\
       name e = option_map Registry.name (Registry.lookupChain (id e)) /\
       nativeId e = option_map Registry.nativeId (Registry.lookupChain (id e)) /\
       (known (id e) -> name e <> None /\ nativeId e <> None) /\
       (~ known (id e) -> name e = None /\ nativeId e = None))
    (chainIds evmDecoded).
Proof.
  assert (Hd : decodeNoText evmPayload = Ok evmDecoded) by reflexivity.
  split; [exact Hd|].
  exact (@chain_entries_annotated throwing throwing throwing (fun _ => throwing)
           evmPayload evmDecoded Hd).
Defined.

Lemma solanaLike_iff_fast_path_witness :
  payload solanaPayload 0x03 solanaBody /\
  exists sp d,
    splitAddressAndChains 0x03 solanaBody = Ok sp /\
    decodeNoText solanaPayload = Ok d /\
    solanaLike (destination d) = Some (length (Split.addressBytes sp) =? 32) /\
    (length (Split.addressBytes sp) = 32 <-> fastPath solanaBody) /\
    (solanaLike (destination d) = Some true <-> fastPath solanaBody).
Proof.
  assert (Hp : payload solanaPayload 0x03 solanaBody) by (split; reflexivity).
  split; [exact Hp|].
  exact (@solanaLike_iff_fast_path throwing throwing throwing
           (fun _ => throwing) solanaPayload solanaBody Hp).
Defined.

(** A 33-byte address with prefix 0x03 is off the fast path: the scan
    takes the last two bytes and [solanaLike] is false. *)
Example base58_off_fast_path :
  option_map (fun d => (solanaLike (destination d), map id (chainIds d)))
    (match decodeNoText (bytesToHex (0x03 :: repeat 0x22 33 ++ [0x00; 0x36])%Z) with
     | Ok d => Some d
     | Throw _ => None
     end)
  = Some (Some false, [54%Z]).
Proof. reflexivity. Qed.

Lemma fixed_family_round_trip_witness :
  fixedFamily 0x02 (length (repeat 0x11%Z 20)) /\
  Forall isByte (repeat 0x11%Z 20) /\
  Forall isByte [0x00; 0x36]%Z /\
  Nat.Even (length [0x00; 0x36]%Z) /\
  exists d,
    decodeNoText (bytesToHex (0x02 :: repeat 0x11 20 ++ [0x00; 0x36])%Z) = Ok d /\
    type d = kindOf 0x02 /\
    addressHex d = Some (bytesToHex (repeat 0x11%Z 20)) /\
    map id (chainIds d) = readChainIds [0x00; 0x36]%Z.
Proof.
  assert (Hf : fixedFamily 0x02 (length (repeat 0x11%Z 20)))
    by (right; left; reflexivity).
  assert (Ha : Forall isByte (repeat 0x11%Z 20)).
  { apply Forall_forall. intros x Hx. apply repeat_spec in Hx. subst x.
    unfold isByte. lia. }
  assert (Ht : Forall isByte [0x00; 0x36]%Z).
  { repeat (apply Forall_cons; [unfold isByte; lia|]). apply Forall_nil. }
  assert (He : Nat.Even (length [0x00; 0x36]%Z)) by (exists 1; reflexivity).
  split; [exact Hf|]. split; [exact Ha|]. split; [exact Ht|]. split; [exact He|].
  exact (@fixed_family_round_trip throwing throwing throwing (fun _ => throwing)
           0x02%Z (repeat 0x11%Z 20) [0x00; 0x36]%Z Hf Ha Ht He).
Defined.


Lemma csv_row_round_trip_witness :
  sampleRow <> [] /\
  readRecord false [] (Fetch.csvRow sampleRow) = map textOf sampleRow.
Proof.
  assert (Hn : sampleRow <> []) by discriminate.
  split; [exact Hn|].
  exact (@csv_row_round_trip sampleRow Hn).
Defined.

(** The line written for [sampleRow]: three fields are quoted, the quotes
    of the third doubled. *)
Example sampleRow_line :
  Fetch.csvRow sampleRow
  = [34%N] ++ str "a,b" ++ [34%N] ++ str ",," ++
    [34%N] ++ str "say " ++ [34; 34]%N ++ str "hi" ++ [34; 34; 34]%N ++ str "," ++
    [34%N] ++ str "two" ++ [10%N] ++ str "lines" ++ [34%N] ++ str ",plain".
Proof. reflexivity. Qed.

Lemma csvEscape_faithful_witness :
  Fetch.csvEscape (Some (str "a,b")) = Fetch.csvEscape (Some (str "a,b")) /\
  str "a,b" = str "a,b" /\
  Nat.Even (count_occ N.eq_dec (Fetch.csvEscape (Some (str "a,b"))) 34%N).
Proof.
  split; [reflexivity|].
  destruct (@csvEscape_faithful (str "a,b") (str "a,b") (Some (str "a,b")))
    as [H1 H2].
  split; [exact (H1 eq_refl) | exact H2].
Defined.

Lemma formatEth_exact_witness :
  (0 <= sampleWei)%Z /\
  exists wholeDigits fracDigits : jsstring,
    Fetch.formatEth (Some sampleWei)
      = wholeDigits ++ match fracDigits with
                       | [] => []
                       | _ :: _ => 46%N :: fracDigits
                       end /\
    wholeDigits <> [] /\
    Forall isDigit wholeDigits /\
    Forall isDigit fracDigits /\
    length fracDigits <= 18 /\
    last fracDigits 49%N <> 48%N /\
    (fracDigits = [] <-> (sampleWei mod 10 ^ 18 = 0)%Z) /\
    sampleWei = (decimalValue wholeDigits * 10 ^ 18
                 + decimalValue fracDigits
                   * 10 ^ (18 - Z.of_nat (length fracDigits)))%Z.
Proof.
  assert (Hw : (0 <= sampleWei)%Z) by (unfold sampleWei; lia).
  split; [exact Hw|].
  exact (@formatEth_exact sampleWei Hw).
Defined.

Example formatEth_samples :
  Fetch.formatEth (Some sampleWei) = str "1.5" /\
  Fetch.formatEth (Some (10 ^ 18)%Z) = str "1" /\
  Fetch.formatEth (Some 1%Z) = str "0.000000000000000001" /\
  Fetch.formatEth (Some 0%Z) = str "0" /\
  Fetch.formatEth None = [].
Proof. repeat split. Qed.

Lemma parseArgs_provenance_witness :
  Fetch.out (Fetch.parseArgs keepText sampleArgv) = Some (str "a.csv") /\
  follows (str "--out") sampleArgv (str "a.csv").
Proof.
  assert (Ho : Fetch.out (Fetch.parseArgs keepText sampleArgv)
               = Some (str "a.csv")) by reflexivity.
  split; [exact Ho|].
  exact (proj1 (@parseArgs_provenance (option jsstring) keepText sampleArgv
                  (str "a.csv")) Ho).
Defined.

(** The element after a flag is its value even when it is spelled like a
    flag, and a flag in last position leaves its option undefined. *)
Example parseArgs_edges :
  Fetch.parseArgs keepText [str "--out"; str "--addr"; str "x"]
    = Fetch.mkArgs None None (Some (str "--addr")) None None None None /\
  Fetch.parseArgs keepText [str "--out"; str "a.csv"; str "--out"]
    = Fetch.mkArgs None None None None None None None /\
  Fetch.parseArgs keepText sampleArgv
    = Fetch.mkArgs (Some (Some (str "7"))) None (Some (str "a.csv")) None None
        (Some (str "t")) None.
Proof. repeat split. Qed.
